(** * Browser-side support layer: request gateway, DOM helpers, auth accessor

    A shallow embedding of the three JavaScript sources

      - the request gateway  ([requestJson], [api]),
      - the DOM helpers      ([escapeHtml], [badgeForResult], [show],
                              [hide], [alertBox]),
      - [static/js/auth.js]  ([getAuth], [setAuth], [clearAuth],
                              [requireAuth], [isTeacher]),

    over a model of the part of the JavaScript engine and of the browser
    they call: strings, data values, [JSON.parse], [JSON.stringify],
    [encodeURIComponent], [fetch], [localStorage], the class list and the
    text content of an element, and the assignment to
    [window.location.href].

    [qs] and [qsa], which need a selector engine, [setHtml], which needs
    the HTML parser, [setText], and [static/js/blockly_demo.js], which
    wires two third-party widgets, are not embedded: no property below is
    about them.

    The model is an idealised browser: [localStorage] is always available
    and has no quota, so a write to it succeeds; a response is a status
    and a complete body text; and the built-in prototypes are the
    standard ones. *)

From stdpp Require Import gmap list strings.
From Stdlib Require Import NArith ZArith Lia Ascii.

Local Open Scope N_scope.

(** ** Strings

    A JavaScript string is a finite sequence of UTF-16 code units.  A code
    unit is a number below 65536; the model does not need the bound, so a
    string is a list of [N]. *)

Abbreviation jstring := (list N).

(** [lit "text"] is the string constant written ['text'] in the source
    (the constants of the three files are all ASCII). *)
Definition lit (s : String.string) : jstring :=
  map N_of_ascii (String.list_ascii_of_string s).
Arguments lit s%_string.

(** [sq "text"]: the constant with a double quote wherever [text] has an
    apostrophe, to write JSON texts. *)
Definition sq (s : String.string) : jstring :=
  map (fun c => if c =? 39 then 34 else c) (lit s).
Arguments sq s%_string.

Fixpoint str_eqb (a b : jstring) : bool :=
  match a, b with
  | [], [] => true
  | x :: a', y :: b' => (x =? y) && str_eqb a' b'
  | _, _ => false
  end.

(** [concat_sep sep parts]: the parts joined with [sep] between them
    ([Array.prototype.join] on strings). *)
Fixpoint concat_sep (sep : jstring) (parts : list jstring) : jstring :=
  match parts with
  | [] => []
  | [p] => p
  | p :: ps => p ++ sep ++ concat_sep sep ps
  end.

Definition is_digit (c : N) : bool := (48 <=? c) && (c <=? 57).

(** Decimal digits of a non-negative integer, as [Number::toString] prints
    an integer-valued number such as [res.status]. The fuel bounds the
    number of digits. *)
Fixpoint dec_digits (fuel : nat) (n : N) (acc : jstring) : jstring :=
  match fuel with
  | O => acc
  | S f =>
      let acc' := (48 + n mod 10) :: acc in
      if n <? 10 then acc' else dec_digits f (n / 10) acc'
  end.

Definition N_to_string (n : N) : jstring := dec_digits (S (N.to_nat (N.log2 n))) n [].

(** Value of the leading run of decimal digits. *)
Fixpoint digits_value (s : jstring) (acc : N) : N :=
  match s with
  | [] => acc
  | c :: r => if is_digit c then digits_value r (10 * acc + (c - 48)) else acc
  end.

(** Surrogate code units. *)
Definition is_high_surrogate (c : N) : bool := (55296 <=? c) && (c <=? 56319).
Definition is_low_surrogate (c : N) : bool := (56320 <=? c) && (c <=? 57343).

(** Hexadecimal digits. *)
Definition hex_lower (d : N) : N := if d <? 10 then 48 + d else 87 + d.
Definition hex_upper (d : N) : N := if d <? 10 then 48 + d else 55 + d.

Definition hex_value (c : N) : option N :=
  if is_digit c then Some (c - 48)
  else if (97 <=? c) && (c <=? 102) then Some (c - 87)
  else if (65 <=? c) && (c <=? 70) then Some (c - 55)
  else None.

(** ** Numbers

    The engine's Number type (IEEE-754 binary64) is not modelled; the
    development is parametric in it. What the sources need of a number is
    its truth value, its decimal text, whether it is finite, and the number
    a JSON numeric token denotes. *)

Class NumberOps := {
  number : Type;
  (** [ToBoolean]: false exactly on [+0], [-0] and [NaN] *)
  number_truthy : number -> bool;
  (** [Number::toString(x, 10)] *)
  number_to_string : number -> jstring;
  (** false on [NaN], [+Infinity], [-Infinity] *)
  number_finite : number -> bool;
  (** the Number value of a JSON number token *)
  number_of_literal : jstring -> number;
}.

(** An engine whose numbers are the integers, used to evaluate the
    definitions on concrete inputs. A token denotes its integer part. *)
Module IntegerEngine.

Definition to_string (z : Z) : jstring :=
  match z with
  | Z0 => lit "0"
  | Zpos p => N_to_string (Npos p)
  | Zneg p => 45 :: N_to_string (Npos p)
  end.

Definition of_literal (tok : jstring) : Z :=
  match tok with
  | 45 :: r => Z.opp (Z.of_N (digits_value r 0))
  | _ => Z.of_N (digits_value tok 0)
  end.

Definition ops : NumberOps := {|
  number := Z;
  number_truthy := fun z => negb (Z.eqb z 0);
  number_to_string := to_string;
  number_finite := fun _ => true;
  number_of_literal := of_literal;
|}.

End IntegerEngine.

#[local] Existing Instance IntegerEngine.ops.

(** ** Data values

    The values the three files handle are plain data: what [JSON.parse]
    builds, what callers pass as payloads and identifiers, and [undefined].
    An object is the list of its own properties in property-enumeration
    order, with pairwise distinct keys. *)

Section Values.
Context {NO : NumberOps}.

Unset Elimination Schemes.
Inductive value : Type :=
| Undefined
| Null
| Bool (b : bool)
| Num (n : number)
| Str (s : jstring)
| Arr (elems : list value)
| Obj (props : list (jstring * value)).
Set Elimination Schemes.

(** Induction over values, through the two nested lists. *)
Definition value_ind (P : value -> Prop)
  (HU : P Undefined) (HN : P Null) (HB : forall b, P (Bool b))
  (Hn : forall n, P (Num n)) (HS : forall s, P (Str s))
  (HA : forall l, Forall P l -> P (Arr l))
  (HO : forall ps, Forall (fun kv => P (snd kv)) ps -> P (Obj ps)) :
  forall v, P v :=
  fix go (v : value) : P v :=
    match v with
    | Undefined => HU
    | Null => HN
    | Bool b => HB b
    | Num n => Hn n
    | Str s => HS s
    | Arr l =>
        HA l ((fix all (l : list value) : Forall P l :=
                 match l with
                 | [] => List.Forall_nil P
                 | x :: l' => List.Forall_cons P x l' (go x) (all l')
                 end) l)
    | Obj ps =>
        HO ps ((fix all (ps : list (jstring * value))
                  : Forall (fun kv => P (snd kv)) ps :=
                  match ps with
                  | [] => List.Forall_nil _
                  | kv :: ps' => List.Forall_cons _ kv ps' (go (snd kv)) (all ps')
                  end) ps)
    end.

(** [ToBoolean]. *)
Definition truthy (v : value) : bool :=
  match v with
  | Undefined | Null => false
  | Bool b => b
  | Num n => number_truthy n
  | Str s => match s with [] => false | _ => true end
  | Arr _ | Obj _ => true
  end.

(** Own-property lookup. *)
Fixpoint own_prop (k : jstring) (ps : list (jstring * value)) : option value :=
  match ps with
  | [] => None
  | (k', v) :: ps' => if str_eqb k k' then Some v else own_prop k ps'
  end.

Definition has_own (k : jstring) (ps : list (jstring * value)) : bool :=
  match own_prop k ps with Some _ => true | None => false end.

(** *** Exceptions

    What a [throw] carries: an error the engine or the browser raises
    ([TypeError], [SyntaxError], [URIError]; their message text is
    engine-defined), or the object built by [new Error(msg)], with the two
    fields [requestJson] assigns to it. *)

Inductive ErrorKind := TypeError | SyntaxError | URIError.

Record ErrorObject := mkError {
  err_message : jstring;
  err_status : option N;
  err_data : option value;
}.

Inductive thrown :=
| EngineError (k : ErrorKind)
| UserError (e : ErrorObject).

Inductive result (A : Type) :=
| Ok (a : A)
| Throws (t : thrown).
Global Arguments Ok {A} a.
Global Arguments Throws {A} t.

Definition bind {A B} (m : result A) (k : A -> result B) : result B :=
  match m with
  | Ok a => k a
  | Throws t => Throws t
  end.

(** [try { m } catch { h }] *)
Definition try_catch {A} (m : result A) (h : result A) : result A :=
  match m with
  | Ok a => Ok a
  | Throws _ => h
  end.

End Values.

Notation "'let*' x ':=' m 'in' k" := (bind m (fun x => k))
  (at level 10, x name, m at level 100, k at level 200).

Section Conversions.
Context {NO : NumberOps}.

(** [ToString]. An array prints its elements joined by commas, [null] and
    [undefined] elements as the empty string. An object has no callable
    [toString] of its own: without an own property of that name the
    inherited [Object.prototype.toString] answers ["[object Object]"]; with
    one (a data value, which hides the inherited method) the conversion
    finds no method that returns a primitive and raises [TypeError]. *)
Fixpoint ToString (v : value) : result jstring :=
  match v with
  | Undefined => Ok (lit "undefined")
  | Null => Ok (lit "null")
  | Bool b => Ok (if b then lit "true" else lit "false")
  | Num n => Ok (number_to_string n)
  | Str s => Ok s
  | Arr l =>
      (fix join (l : list value) : result jstring :=
         match l with
         | [] => Ok []
         | x :: l' =>
             let* t := match x with
                       | Undefined | Null => Ok []
                       | _ => ToString x
                       end in
             match l' with
             | [] => Ok t
             | _ => let* r := join l' in Ok (t ++ 44 :: r)
             end
         end) l
  | Obj ps =>
      if has_own (lit "toString") ps then Throws (EngineError TypeError)
      else Ok (lit "[object Object]")
  end.

(** [v.k], for a property name [k] that the built-in prototypes do not
    define and that is neither [length] nor an index (the sources read
    [error] and [role]). Reading a property of [null] or [undefined]
    raises [TypeError]. *)
Definition get_prop (v : value) (k : jstring) : result value :=
  match v with
  | Undefined | Null => Throws (EngineError TypeError)
  | Obj ps => Ok (default Undefined (own_prop k ps))
  | _ => Ok Undefined
  end.

(** [v === 'text'] against a string constant. *)
Definition strict_eq_str (v : value) (s : jstring) : bool :=
  match v with
  | Str s' => str_eqb s' s
  | _ => false
  end.

End Conversions.

(** ** JSON

    [JSON.stringify] (without indentation) and [JSON.parse] (without
    reviver) on data values. *)

(** *** Serialising *)

(** The two-character escapes of [QuoteJSONString]. *)
Definition short_escape (c : N) : option N :=
  if c =? 8 then Some 98          (* b *)
  else if c =? 9 then Some 116    (* t *)
  else if c =? 10 then Some 110   (* n *)
  else if c =? 12 then Some 102   (* f *)
  else if c =? 13 then Some 114   (* r *)
  else if c =? 34 then Some 34    (* quote *)
  else if c =? 92 then Some 92    (* backslash *)
  else None.

(** [\uXXXX], four lower-case hexadecimal digits. *)
Definition unicode_escape (c : N) : jstring :=
  [92; 117; hex_lower (c / 4096 mod 16); hex_lower (c / 256 mod 16);
   hex_lower (c / 16 mod 16); hex_lower (c mod 16)].

(** The characters between the quotes: control characters and lone
    surrogates are escaped, a surrogate pair is kept. *)
Fixpoint quote_units (s : jstring) : jstring :=
  match s with
  | [] => []
  | c :: r =>
      match short_escape c with
      | Some e => 92 :: e :: quote_units r
      | None =>
          if c <? 32 then unicode_escape c ++ quote_units r
          else if is_high_surrogate c then
            match r with
            | d :: r' =>
                if is_low_surrogate d then c :: d :: quote_units r'
                else unicode_escape c ++ quote_units r
            | [] => unicode_escape c
            end
          else if is_low_surrogate c then unicode_escape c ++ quote_units r
          else c :: quote_units r
      end
  end.

Definition quote (s : jstring) : jstring := 34 :: quote_units s ++ [34].

Section Json.
Context {NO : NumberOps}.

(** [JSON.stringify(v)]; [None] is the result [undefined]. A property
    whose value is [undefined] is left out, an array element that is
    [undefined] is written [null], and so is a number that is not finite. *)
Fixpoint stringify (v : value) : option jstring :=
  match v with
  | Undefined => None
  | Null => Some (lit "null")
  | Bool b => Some (if b then lit "true" else lit "false")
  | Num n => Some (if number_finite n then number_to_string n else lit "null")
  | Str s => Some (quote s)
  | Arr l =>
      Some (91 :: concat_sep [44]
                    (map (fun x => default (lit "null") (stringify x)) l)
               ++ [93])
  | Obj ps =>
      Some (123 :: concat_sep [44]
                     (flat_map (fun kv =>
                                  match stringify (snd kv) with
                                  | Some t => [quote (fst kv) ++ 58 :: t]
                                  | None => []
                                  end) ps)
                ++ [125])
  end.

(** *** Parsing *)

Definition is_ws (c : N) : bool :=
  (c =? 9) || (c =? 10) || (c =? 13) || (c =? 32).

Fixpoint skip_ws (s : jstring) : jstring :=
  match s with
  | c :: r => if is_ws c then skip_ws r else s
  | [] => []
  end.

(** A string, read after its opening quote: the characters up to the
    closing quote, escapes decoded, and the rest of the input. *)
Definition unescape (c : N) : option N :=
  if c =? 34 then Some 34
  else if c =? 92 then Some 92
  else if c =? 47 then Some 47
  else if c =? 98 then Some 8
  else if c =? 102 then Some 12
  else if c =? 110 then Some 10
  else if c =? 114 then Some 13
  else if c =? 116 then Some 9
  else None.

Definition hex4 (a b c d : N) : option N :=
  match hex_value a, hex_value b, hex_value c, hex_value d with
  | Some x, Some y, Some z, Some w => Some (((x * 16 + y) * 16 + z) * 16 + w)
  | _, _, _, _ => None
  end.

Definition cons_fst {A B} (a : A) (r : option (list A * B)) : option (list A * B) :=
  match r with
  | Some (l, b) => Some (a :: l, b)
  | None => None
  end.

Fixpoint parse_string (s : jstring) : option (jstring * jstring) :=
  match s with
  | [] => None
  | c :: r =>
      if c =? 34 then Some ([], r)
      else if c =? 92 then
        match r with
        | [] => None
        | e :: r' =>
            if e =? 117 then
              match r' with
              | h1 :: h2 :: h3 :: h4 :: r'' =>
                  match hex4 h1 h2 h3 h4 with
                  | Some u => cons_fst u (parse_string r'')
                  | None => None
                  end
              | _ => None
              end
            else
              match unescape e with
              | Some u => cons_fst u (parse_string r')
              | None => None
              end
        end
      else if c <? 32 then None
      else cons_fst c (parse_string r)
  end.

(** A number token, by the automaton of the JSON number grammar: an
    optional minus sign; then a zero, or a non-zero digit and any digits;
    then optionally a point and one digit or more; then optionally an [e]
    or [E], an optional sign and one digit or more. *)
Inductive num_state :=
| NStart | NMinus | NZero | NInt | NDot | NFrac | NE | NESign | NExp.

Definition num_step (st : num_state) (c : N) : option num_state :=
  match st with
  | NStart =>
      if c =? 45 then Some NMinus
      else if c =? 48 then Some NZero
      else if is_digit c then Some NInt
      else None
  | NMinus =>
      if c =? 48 then Some NZero
      else if is_digit c then Some NInt
      else None
  | NZero =>
      if c =? 46 then Some NDot
      else if (c =? 101) || (c =? 69) then Some NE
      else None
  | NInt =>
      if is_digit c then Some NInt
      else if c =? 46 then Some NDot
      else if (c =? 101) || (c =? 69) then Some NE
      else None
  | NDot => if is_digit c then Some NFrac else None
  | NFrac =>
      if is_digit c then Some NFrac
      else if (c =? 101) || (c =? 69) then Some NE
      else None
  | NE =>
      if (c =? 43) || (c =? 45) then Some NESign
      else if is_digit c then Some NExp
      else None
  | NESign => if is_digit c then Some NExp else None
  | NExp => if is_digit c then Some NExp else None
  end.

Definition num_final (st : num_state) : bool :=
  match st with
  | NZero | NInt | NFrac | NExp => true
  | _ => false
  end.

Fixpoint scan_number (st : num_state) (s : jstring) : option (jstring * jstring) :=
  match s with
  | [] => if num_final st then Some ([], []) else None
  | c :: r =>
      match num_step st c with
      | Some st' => cons_fst c (scan_number st' r)
      | None => if num_final st then Some ([], s) else None
      end
  end.

Definition lex_number (s : jstring) : option (jstring * jstring) :=
  scan_number NStart s.

(** [strip_prefix p s]: [s] without its prefix [p]. *)
Fixpoint strip_prefix (p s : jstring) : option jstring :=
  match p, s with
  | [], _ => Some s
  | x :: p', y :: s' => if x =? y then strip_prefix p' s' else None
  | _ :: _, [] => None
  end.

(** *** Objects under construction

    [JSON.parse] adds the members of an object one by one
    ([CreateDataProperty]): a key already present keeps its place and takes
    the new value; a new key that is an array index goes among the array
    indices, in ascending order, before all other keys; any other new key
    goes last. *)

Definition array_index (k : jstring) : option N :=
  let n := digits_value k 0 in
  if forallb is_digit k && str_eqb k (N_to_string n) && (n <? 4294967295)
  then Some n else None.

Fixpoint replace_prop (k : jstring) (v : value) (ps : list (jstring * value))
  : list (jstring * value) :=
  match ps with
  | [] => []
  | (k', v') :: ps' =>
      if str_eqb k k' then (k', v) :: ps' else (k', v') :: replace_prop k v ps'
  end.

Fixpoint insert_index (n : N) (k : jstring) (v : value)
  (ps : list (jstring * value)) : list (jstring * value) :=
  match ps with
  | [] => [(k, v)]
  | (k', v') :: ps' =>
      match array_index k' with
      | Some n' =>
          if n' <? n then (k', v') :: insert_index n k v ps' else (k, v) :: ps
      | None => (k, v) :: ps
      end
  end.

Definition set_prop (k : jstring) (v : value) (ps : list (jstring * value))
  : list (jstring * value) :=
  if has_own k ps then replace_prop k v ps
  else match array_index k with
       | Some n => insert_index n k v ps
       | None => ps ++ [(k, v)]
       end.

Definition build_object (members : list (jstring * value)) : list (jstring * value) :=
  fold_left (fun ps kv => set_prop (fst kv) (snd kv) ps) members [].

(** [next_is c s]: the rest of [s] after white space and the character
    [c], when that is how [s] begins. *)
Definition next_is (c : N) (s : jstring) : option jstring :=
  match skip_ws s with
  | x :: r => if x =? c then Some r else None
  | [] => None
  end.

(** The recursive-descent parser. The fuel bounds the depth of the
    calls; a text of [n] characters needs a depth of [2 * n] at most. *)
Fixpoint parse_value (fuel : nat) (s : jstring) : option (value * jstring) :=
  match fuel with
  | O => None
  | S fuel' =>
      match skip_ws s with
      | [] => None
      | c :: r =>
          if c =? 123 then
            match next_is 125 r with
            | Some r' => Some (Obj [], r')
            | None =>
                match parse_members fuel' r with
                | Some (ms, r') => Some (Obj (build_object ms), r')
                | None => None
                end
            end
          else if c =? 91 then
            match next_is 93 r with
            | Some r' => Some (Arr [], r')
            | None =>
                match parse_elements fuel' r with
                | Some (vs, r') => Some (Arr vs, r')
                | None => None
                end
            end
          else if c =? 34 then
            match parse_string r with
            | Some (str, r') => Some (Str str, r')
            | None => None
            end
          else if (c =? 45) || is_digit c then
            match lex_number (c :: r) with
            | Some (tok, r') => Some (Num (number_of_literal tok), r')
            | None => None
            end
          else
            match strip_prefix (lit "true") (c :: r) with
            | Some r' => Some (Bool true, r')
            | None =>
                match strip_prefix (lit "false") (c :: r) with
                | Some r' => Some (Bool false, r')
                | None =>
                    match strip_prefix (lit "null") (c :: r) with
                    | Some r' => Some (Null, r')
                    | None => None
                    end
                end
            end
      end
  end
with parse_elements (fuel : nat) (s : jstring) : option (list value * jstring) :=
  match fuel with
  | O => None
  | S fuel' =>
      match parse_value fuel' s with
      | None => None
      | Some (v, r) =>
          match next_is 44 r with
          | Some r' => cons_fst v (parse_elements fuel' r')
          | None =>
              match next_is 93 r with
              | Some r' => Some ([v], r')
              | None => None
              end
          end
      end
  end
with parse_members (fuel : nat) (s : jstring)
  : option (list (jstring * value) * jstring) :=
  match fuel with
  | O => None
  | S fuel' =>
      match next_is 34 s with
      | None => None
      | Some r =>
          match parse_string r with
          | None => None
          | Some (k, r1) =>
              match next_is 58 r1 with
              | None => None
              | Some r2 =>
                  match parse_value fuel' r2 with
                  | None => None
                  | Some (v, r3) =>
                      match next_is 44 r3 with
                      | Some r4 => cons_fst (k, v) (parse_members fuel' r4)
                      | None =>
                          match next_is 125 r3 with
                          | Some r4 => Some ([(k, v)], r4)
                          | None => None
                          end
                      end
                  end
              end
          end
      end
  end.

(** [JSON.parse(text)]: one value, white space around it, nothing else;
    anything else raises [SyntaxError]. *)
Definition JSON_parse (text : jstring) : result value :=
  match parse_value (S (2 * length text)) text with
  | Some (v, r) =>
      match skip_ws r with
      | [] => Ok v
      | _ => Throws (EngineError SyntaxError)
      end
  | None => Throws (EngineError SyntaxError)
  end.

(** [JSON.stringify(v)] as a value: a string or [undefined]. *)
Definition JSON_stringify (v : value) : value :=
  match stringify v with
  | Some t => Str t
  | None => Undefined
  end.

End Json.

(** ** [encodeURIComponent]

    Letters, digits and [- _ . ! ~ * ' ( )] are kept; every other code
    point is written as the [%XX] of each byte of its UTF-8 encoding. A
    surrogate that is not part of a pair raises [URIError]. *)

Definition uri_unreserved (c : N) : bool :=
  ((65 <=? c) && (c <=? 90)) || ((97 <=? c) && (c <=? 122)) || is_digit c
  || (c =? 45) || (c =? 95) || (c =? 46) || (c =? 33) || (c =? 126)
  || (c =? 42) || (c =? 39) || (c =? 40) || (c =? 41).

Definition utf8 (cp : N) : list N :=
  if cp <? 128 then [cp]
  else if cp <? 2048 then [192 + cp / 64; 128 + cp mod 64]
  else if cp <? 65536 then
    [224 + cp / 4096; 128 + cp / 64 mod 64; 128 + cp mod 64]
  else
    [240 + cp / 262144; 128 + cp / 4096 mod 64; 128 + cp / 64 mod 64;
     128 + cp mod 64].

Definition percent (byte : N) : jstring :=
  [37; hex_upper (byte / 16); hex_upper (byte mod 16)].

Definition percent_utf8 (cp : N) : jstring := flat_map percent (utf8 cp).

Section Uri.
Context {NO : NumberOps}.

Fixpoint uri_encode (s : jstring) : result jstring :=
  match s with
  | [] => Ok []
  | c :: r =>
      if uri_unreserved c then
        let* t := uri_encode r in Ok (c :: t)
      else if is_low_surrogate c then Throws (EngineError URIError)
      else if is_high_surrogate c then
        match r with
        | d :: r' =>
            if is_low_surrogate d then
              let* t := uri_encode r' in
              Ok (percent_utf8 (65536 + (c - 55296) * 1024 + (d - 56320)) ++ t)
            else Throws (EngineError URIError)
        | [] => Throws (EngineError URIError)
        end
      else
        let* t := uri_encode r in Ok (percent_utf8 c ++ t)
  end.

Definition encodeURIComponent (v : value) : result jstring :=
  let* s := ToString v in uri_encode s.

End Uri.

(** ** [fetch]

    A program is a tree of [fetch] calls: it returns, throws, or calls
    [fetch] and goes on with the response. For an [async] function,
    returning is fulfilling its promise and throwing is rejecting it. The
    network answers each call with a response or a rejection; a response
    has a status and a body text, and is [ok] when the status is in the
    range 200-299. *)

Record Response := mkResponse {
  res_status : N;
  res_text : jstring;
}.

Definition res_ok (res : Response) : bool :=
  (200 <=? res_status res) && (res_status res <=? 299).

Section Programs.
Context {NO : NumberOps}.

(** The arguments of a [fetch] call: the path and the [init] object. *)
Record Request := mkRequest {
  req_path : jstring;
  req_method : jstring;
  req_headers : list (jstring * jstring);
  req_body : value;
}.

Inductive FetchOutcome :=
| Resolved (res : Response)
| Rejected (t : thrown).

Inductive Prog (A : Type) :=
| Ret (a : A)
| Throw (t : thrown)
| Fetch (req : Request) (k : Response -> Prog A).
Global Arguments Ret {A} a.
Global Arguments Throw {A} t.
Global Arguments Fetch {A} req k.

Definition lift {A} (m : result A) : Prog A :=
  match m with
  | Ok a => Ret a
  | Throws t => Throw t
  end.

Fixpoint pbind {A B} (p : Prog A) (k : A -> Prog B) : Prog B :=
  match p with
  | Ret a => k a
  | Throw t => Throw t
  | Fetch req k' => Fetch req (fun res => pbind (k' res) k)
  end.

(** The network: its answer to the [n]-th call of a run. *)
Definition Network := nat -> Request -> FetchOutcome.

(** Running a program: the calls it made, in order, and how it ended. A
    rejected [fetch] that the program does not catch ends it with the
    rejection. *)
Fixpoint run_from {A} (net : Network) (n : nat) (p : Prog A)
  : list Request * result A :=
  match p with
  | Ret a => ([], Ok a)
  | Throw t => ([], Throws t)
  | Fetch req k =>
      match net n req with
      | Rejected t => ([req], Throws t)
      | Resolved res =>
          let (log, out) := run_from net (S n) (k res) in (req :: log, out)
      end
  end.

Definition run {A} (net : Network) (p : Prog A) : list Request * result A :=
  run_from net 0 p.

End Programs.

Notation "'await*' x ':=' m 'in' k" := (pbind m (fun x => k))
  (at level 10, x name, m at level 100, k at level 200).

(** ** The request gateway *)

Section Gateway.
Context {NO : NumberOps}.

(** The second argument of [requestJson], destructured as
    [{ method = 'GET', body } = {}]: a missing or [undefined] [method] is
    [None], a missing [body] is [undefined]. *)
Record Options := mkOptions {
  opt_method : option jstring;
  opt_body : value;
}.

Definition no_options : Options :=
  {| opt_method := None; opt_body := Undefined |}.

(** [new Error(msg)]: the message is [msg] converted to a string. *)
Definition new_Error (msg : value) : result ErrorObject :=
  match msg with
  | Undefined => Ok (mkError [] None None)
  | _ => let* m := ToString msg in Ok (mkError m None None)
  end.

(** Lines 9-14 of [requestJson]: the body text decoded. *)
Definition decode_body (text : jstring) : result value :=
  try_catch
    (if truthy (Str text) then JSON_parse text else Ok (Obj []))
    (Ok (Obj [(lit "raw", Str text)])).

(** Lines 16-22: the error thrown for a response that is not [ok].
    [c] is the value of [data && data.error]; the message is [data.error]
    when [c] is truthy and the template [HTTP ${res.status}] otherwise;
    then come the two assignments [err.status = res.status] and
    [err.data = data]. *)
Definition http_error (res : Response) (data : value) : result ErrorObject :=
  let* c := (if truthy data then get_prop data (lit "error") else Ok data) in
  let* msg := (if truthy c then get_prop data (lit "error")
               else Ok (Str (lit "HTTP " ++ N_to_string (res_status res)))) in
  let* err := new_Error msg in
  let err := mkError (err_message err) (Some (res_status res)) (err_data err) in
  let err := mkError (err_message err) (err_status err) (Some data) in
  Ok err.

Definition requestJson (path : jstring) (opts : option Options) : Prog value :=
  let o := default no_options opts in
  let method := default (lit "GET") (opt_method o) in
  let body := opt_body o in
  Fetch {| req_path := path;
           req_method := method;
           req_headers := [(lit "Content-Type", lit "application/json")];
           req_body := if truthy body then JSON_stringify body else Undefined |}
    (fun res =>
       let text := res_text res in
       await* data := lift (decode_body text) in
       if negb (res_ok res) then
         await* err := lift (http_error res data) in
         Throw (UserError err)
       else Ret data).

End Gateway.

(** The [api] object. An argument the caller leaves out is [undefined]. *)
Module api.
Section Operations.
Context {NO : NumberOps}.

(** [{ method: 'POST', body: payload }] and its two siblings. *)
Definition post (payload : value) : option Options :=
  Some {| opt_method := Some (lit "POST"); opt_body := payload |}.
Definition put (payload : value) : option Options :=
  Some {| opt_method := Some (lit "PUT"); opt_body := payload |}.
Definition del (payload : value) : option Options :=
  Some {| opt_method := Some (lit "DELETE"); opt_body := payload |}.

Definition register (payload : value) : Prog value :=
  requestJson (lit "/register") (post payload).

Definition login (payload : value) : Prog value :=
  requestJson (lit "/login") (post payload).

Definition getChallenges : Prog value :=
  requestJson (lit "/challenges") None.

Definition getChallenge (id : value) : Prog value :=
  await* i := lift (ToString id) in
  requestJson (lit "/challenges/" ++ i) None.

Definition addChallenge (payload : value) : Prog value :=
  requestJson (lit "/add_challenge") (post payload).

Definition updateChallenge (id payload : value) : Prog value :=
  await* i := lift (ToString id) in
  requestJson (lit "/challenges/" ++ i) (put payload).

Definition deleteChallenge (id payload : value) : Prog value :=
  await* i := lift (ToString id) in
  requestJson (lit "/challenges/" ++ i) (del payload).

Definition submit (payload : value) : Prog value :=
  requestJson (lit "/submit") (post payload).

Definition getSubmissions (username : value) : Prog value :=
  await* u := lift (encodeURIComponent username) in
  requestJson (lit "/submissions/" ++ u) None.

Definition teacherListSubmissions (payload : value) : Prog value :=
  requestJson (lit "/teacher/submissions") (post payload).

Definition teacherUpdateSubmission (submissionId payload : value) : Prog value :=
  await* i := lift (encodeURIComponent submissionId) in
  requestJson (lit "/teacher/submissions/" ++ i) (put payload).

Definition addTestCase (challengeId payload : value) : Prog value :=
  await* i := lift (ToString challengeId) in
  requestJson (lit "/challenges/" ++ i ++ lit "/add_test_case") (post payload).

Definition deleteTestCase (testCaseId payload : value) : Prog value :=
  await* i := lift (ToString testCaseId) in
  requestJson (lit "/test_cases/" ++ i) (del payload).

Definition addSolutionTemplate (challengeId payload : value) : Prog value :=
  await* i := lift (ToString challengeId) in
  requestJson (lit "/challenges/" ++ i ++ lit "/add_solution_template")
    (post payload).

Definition deleteSolutionTemplate (templateId payload : value) : Prog value :=
  await* i := lift (ToString templateId) in
  requestJson (lit "/solution_templates/" ++ i) (del payload).

Definition exportChallenge (challengeId : value) : Prog value :=
  await* i := lift (ToString challengeId) in
  requestJson (lit "/challenges/" ++ i ++ lit "/export") None.

Definition copyChallenge (challengeId payload : value) : Prog value :=
  await* i := lift (ToString challengeId) in
  requestJson (lit "/challenges/" ++ i ++ lit "/copy") (post payload).

Definition importChallenge (payload : value) : Prog value :=
  requestJson (lit "/import_challenge") (post payload).

End Operations.
End api.

(** ** The DOM helpers *)

Fixpoint starts_with (p s : jstring) : bool :=
  match p, s with
  | [], _ => true
  | x :: p', y :: s' => (x =? y) && starts_with p' s'
  | _ :: _, [] => false
  end.

(** [s.replaceAll(pat, rep)] for a string pattern that is not empty and a
    replacement without [$]: the occurrences of [pat] are found from left
    to right, without overlap. [skip] counts the characters of the
    occurrence just replaced that are still to be passed over. *)
Fixpoint replaceAll_from (pat rep : jstring) (skip : nat) (s : jstring) : jstring :=
  match s with
  | [] => []
  | c :: r =>
      match skip with
      | S k => replaceAll_from pat rep k r
      | O =>
          if starts_with pat s
          then rep ++ replaceAll_from pat rep (length pat - 1) r
          else c :: replaceAll_from pat rep 0 r
      end
  end.

Definition replaceAll (s pat rep : jstring) : jstring :=
  replaceAll_from pat rep 0 s.

Section Dom.
Context {NO : NumberOps}.

Definition escapeHtml (str : value) : result jstring :=
  let* s := ToString str in
  let s := replaceAll s (lit "&") (lit "&amp;") in
  let s := replaceAll s (lit "<") (lit "&lt;") in
  let s := replaceAll s (lit ">") (lit "&gt;") in
  let s := replaceAll s [34] (lit "&quot;") in
  let s := replaceAll s (lit "'") (lit "&#039;") in
  Ok s.

End Dom.

(** ** [static/js/auth.js] *)

(** [localStorage]: a finite map from keys to strings, always available
    and without quota. *)
Abbreviation Storage := (gmap jstring jstring).

Definition AUTH_KEY : jstring := lit "smart_platform_auth".

Section Auth.
Context {NO : NumberOps}.

(** [localStorage.getItem(k)]: the stored string, or [null]. *)
Definition getItem (st : Storage) (k : jstring) : value :=
  match st !! k with
  | Some s => Str s
  | None => Null
  end.

(** [localStorage.setItem(k, v)] stores [v] converted to a string. A
    write that the browser refuses (quota, access) is outside the
    model. *)
Definition setItem (st : Storage) (k : jstring) (v : value) : result Storage :=
  let* s := ToString v in Ok (<[k := s]> st).

(** [localStorage.removeItem(k)]. *)
Definition removeItem (st : Storage) (k : jstring) : Storage :=
  delete k st.

Definition getAuth (st : Storage) : result value :=
  try_catch
    (let raw := getItem st AUTH_KEY in
     if truthy raw then let* text := ToString raw in JSON_parse text
     else Ok Null)
    (Ok Null).

Definition setAuth (auth : value) (st : Storage) : result Storage :=
  setItem st AUTH_KEY (JSON_stringify auth).

Definition clearAuth (st : Storage) : Storage :=
  removeItem st AUTH_KEY.

Definition isTeacher (auth : value) : result value :=
  if truthy auth then
    let* r1 := get_prop auth (lit "role") in
    if strict_eq_str r1 (lit "teacher") then Ok (Bool true)
    else
      let* r2 := get_prop auth (lit "role") in
      Ok (Bool (strict_eq_str r2 (lit "admin")))
  else Ok auth.

End Auth.

(** ** Definitions used to state the properties *)

Section Statements.
Context {NO : NumberOps}.

(** The request [requestJson path opts] hands to [fetch], read off its
    arguments. *)
Definition request_of (path : jstring) (opts : option Options) : Request :=
  let o := default no_options opts in
  {| req_path := path;
     req_method := default (lit "GET") (opt_method o);
     req_headers := [(lit "Content-Type", lit "application/json")];
     req_body := if truthy (opt_body o) then JSON_stringify (opt_body o)
                 else Undefined |}.

(** What [requestJson] does with a response, once [fetch] has resolved. *)
Definition respond (res : Response) : result value :=
  let* data := decode_body (res_text res) in
  if negb (res_ok res) then
    let* err := http_error res data in Throws (UserError err)
  else Ok data.

(** The [error] field of a decoded body; [undefined] when the body is not
    an object or has no such field. *)
Definition error_field (data : value) : value :=
  match data with
  | Obj ps => default Undefined (own_prop (lit "error") ps)
  | _ => Undefined
  end.

(** A network that answers every call with the same response. *)
Definition always (res : Response) : Network := fun _ _ => Resolved res.

End Statements.

(** The five entities [escapeHtml] writes. *)
Definition entities : list jstring :=
  [lit "&amp;"; lit "&lt;"; lit "&gt;"; lit "&quot;"; lit "&#039;"].

(** What [escapeHtml] makes of one character. *)
Definition escape_unit (c : N) : jstring :=
  if c =? 38 then lit "&amp;"
  else if c =? 60 then lit "&lt;"
  else if c =? 62 then lit "&gt;"
  else if c =? 34 then lit "&quot;"
  else if c =? 39 then lit "&#039;"
  else [c].

(** *** The interface catalogue

    The operations of [api], and for each the method and path that the
    list of consumed HTTP endpoints of the specification gives. [Param]
    is the place of [{id}] or [{username}]. *)

Inductive Operation :=
| Register | Login | GetChallenges | GetChallenge | AddChallenge
| UpdateChallenge | DeleteChallenge | Submit | GetSubmissions
| TeacherListSubmissions | TeacherUpdateSubmission
| AddTestCase | DeleteTestCase
| AddSolutionTemplate | DeleteSolutionTemplate
| ExportChallenge | CopyChallenge | ImportChallenge.

Inductive Segment := Text (s : jstring) | Param.

Record Endpoint := mkEndpoint {
  ep_method : jstring;
  ep_path : list Segment;
}.

Definition endpoint (op : Operation) : Endpoint :=
  match op with
  | Register => mkEndpoint (lit "POST") [Text (lit "/register")]
  | Login => mkEndpoint (lit "POST") [Text (lit "/login")]
  | GetChallenges => mkEndpoint (lit "GET") [Text (lit "/challenges")]
  | GetChallenge => mkEndpoint (lit "GET") [Text (lit "/challenges/"); Param]
  | AddChallenge => mkEndpoint (lit "POST") [Text (lit "/add_challenge")]
  | UpdateChallenge => mkEndpoint (lit "PUT") [Text (lit "/challenges/"); Param]
  | DeleteChallenge =>
      mkEndpoint (lit "DELETE") [Text (lit "/challenges/"); Param]
  | Submit => mkEndpoint (lit "POST") [Text (lit "/submit")]
  | GetSubmissions => mkEndpoint (lit "GET") [Text (lit "/submissions/"); Param]
  | TeacherListSubmissions =>
      mkEndpoint (lit "POST") [Text (lit "/teacher/submissions")]
  | TeacherUpdateSubmission =>
      mkEndpoint (lit "PUT") [Text (lit "/teacher/submissions/"); Param]
  | AddTestCase =>
      mkEndpoint (lit "POST")
        [Text (lit "/challenges/"); Param; Text (lit "/add_test_case")]
  | DeleteTestCase => mkEndpoint (lit "DELETE") [Text (lit "/test_cases/"); Param]
  | AddSolutionTemplate =>
      mkEndpoint (lit "POST")
        [Text (lit "/challenges/"); Param; Text (lit "/add_solution_template")]
  | DeleteSolutionTemplate =>
      mkEndpoint (lit "DELETE") [Text (lit "/solution_templates/"); Param]
  | ExportChallenge =>
      mkEndpoint (lit "GET") [Text (lit "/challenges/"); Param; Text (lit "/export")]
  | CopyChallenge =>
      mkEndpoint (lit "POST") [Text (lit "/challenges/"); Param; Text (lit "/copy")]
  | ImportChallenge => mkEndpoint (lit "POST") [Text (lit "/import_challenge")]
  end.

Definition has_param (segs : list Segment) : bool :=
  existsb (fun sg => match sg with Param => true | Text _ => false end) segs.

(** The path of a catalogue entry, its parameter replaced by [p]. *)
Definition fill (segs : list Segment) (p : jstring) : jstring :=
  flat_map (fun sg => match sg with Text s => s | Param => p end) segs.

Section Catalogue.
Context {NO : NumberOps}.

(** [api[op](...args)]: a missing argument is [undefined], an argument
    in excess is ignored. *)
Definition call (op : Operation) (args : list value) : Prog value :=
  let a := nth 0 args Undefined in
  let b := nth 1 args Undefined in
  match op with
  | Register => api.register a
  | Login => api.login a
  | GetChallenges => api.getChallenges
  | GetChallenge => api.getChallenge a
  | AddChallenge => api.addChallenge a
  | UpdateChallenge => api.updateChallenge a b
  | DeleteChallenge => api.deleteChallenge a b
  | Submit => api.submit a
  | GetSubmissions => api.getSubmissions a
  | TeacherListSubmissions => api.teacherListSubmissions a
  | TeacherUpdateSubmission => api.teacherUpdateSubmission a b
  | AddTestCase => api.addTestCase a b
  | DeleteTestCase => api.deleteTestCase a b
  | AddSolutionTemplate => api.addSolutionTemplate a b
  | DeleteSolutionTemplate => api.deleteSolutionTemplate a b
  | ExportChallenge => api.exportChallenge a
  | CopyChallenge => api.copyChallenge a b
  | ImportChallenge => api.importChallenge a
  end.

(** The text an operation puts in the place of the parameter: its first
    argument converted to a string, URI-encoded for the two operations
    that encode it. *)
Definition param_text (op : Operation) (a : value) : result jstring :=
  match op with
  | GetSubmissions | TeacherUpdateSubmission => encodeURIComponent a
  | _ => ToString a
  end.

(** The path of an operation called with first argument [a]. *)
Definition path_of (op : Operation) (a : value) : result jstring :=
  if has_param (ep_path (endpoint op)) then
    let* p := param_text op a in Ok (fill (ep_path (endpoint op)) p)
  else Ok (fill (ep_path (endpoint op)) []).

End Catalogue.


(** *** JSON data

    The values that [JSON.stringify] writes without loss: no [undefined],
    numbers that are finite and are read back from their text (for IEEE
    doubles: every finite number except negative zero), and objects whose
    keys are distinct and in property-enumeration order (array indices
    first, ascending, then the other keys). *)

Section JsonData.
Context {NO : NumberOps}.

Definition exact_number (n : number) : Prop :=
  number_finite n = true
  /\ lex_number (number_to_string n) = Some (number_to_string n, [])
  /\ number_of_literal (number_to_string n) = n.

(** [keys_in_order bound text_seen ks]: in [ks] the array indices come
    first and ascend; [bound] is the last index passed, [text_seen] tells
    whether a key that is not an index was passed. *)
Fixpoint keys_in_order (bound : option N) (text_seen : bool) (ks : list jstring)
  : bool :=
  match ks with
  | [] => true
  | k :: ks' =>
      match array_index k with
      | Some n =>
          negb text_seen
          && match bound with Some b => b <? n | None => true end
          && keys_in_order (Some n) false ks'
      | None => keys_in_order bound true ks'
      end
  end.

Definition own_keys_ok (ks : list jstring) : Prop :=
  NoDup ks /\ keys_in_order None false ks = true.

#[warnings="-register-all"] Inductive json_data : value -> Prop :=
| jd_null : json_data Null
| jd_bool (b : bool) : json_data (Bool b)
| jd_num (n : number) : exact_number n -> json_data (Num n)
| jd_str (s : jstring) : json_data (Str s)
| jd_arr (l : list value) : Forall json_data l -> json_data (Arr l)
| jd_obj (ps : list (jstring * value)) :
    own_keys_ok (map fst ps) ->
    Forall (fun kv => json_data (snd kv)) ps ->
    json_data (Obj ps).

(** A depth of parser calls that is enough for the text of a value. *)
Fixpoint size (v : value) : nat :=
  match v with
  | Arr l => S (fold_right (fun x acc => S (size x + acc)) 0%nat l)
  | Obj ps => S (fold_right (fun kv acc => S (size (snd kv) + acc)) 0%nat ps)
  | _ => 1
  end.

(** What may follow a value in a JSON text: nothing, a comma or a
    closing bracket. *)
Definition delimited (rest : jstring) : Prop :=
  match rest with
  | [] => True
  | c :: _ => c = 44 \/ c = 93 \/ c = 125
  end.

(** [reads_back v]: the text of [v], followed by anything that may follow
    a value, is parsed back into [v], with fuel for the calls needed. *)
Definition reads_back (v : value) : Prop :=
  forall t, stringify v = Some t ->
  forall fuel rest, (size v <= fuel)%nat -> delimited rest ->
  parse_value fuel (t ++ rest) = Some (v, rest).

Definition elements_text (l : list value) : list jstring :=
  map (fun x => default (lit "null") (stringify x)) l.

Definition members_text (ps : list (jstring * value)) : list jstring :=
  flat_map (fun kv => match stringify (snd kv) with
                      | Some t => [quote (fst kv) ++ 58 :: t]
                      | None => []
                      end) ps.

Definition elements_size (l : list value) : nat :=
  fold_right (fun x acc => S (size x + acc)) 0%nat l.

Definition members_size (ps : list (jstring * value)) : nat :=
  fold_right (fun kv acc => S (size (snd kv) + acc)) 0%nat ps.

(** [prune v]: [v] without the properties whose value is [undefined],
    which [JSON.stringify] leaves out. *)
Fixpoint prune (v : value) : value :=
  match v with
  | Arr l => Arr (map prune l)
  | Obj ps =>
      Obj (flat_map (fun kv => match snd kv with
                               | Undefined => []
                               | _ => [(fst kv, prune (snd kv))]
                               end) ps)
  | _ => v
  end.

End JsonData.

(** ** More of the sources

    The other functions of the DOM helpers and of [static/js/auth.js]
    that can be embedded: [badgeForResult], [show], [hide] and
    [requireAuth]. *)

(** *** [badgeForResult] *)

(** The three labels, in Arabic script: success, partial, failure. *)
Definition label_success : jstring := [1606; 1580; 1575; 1581].
Definition label_partial : jstring := [1580; 1586; 1574; 1610].
Definition label_failure : jstring := [1601; 1588; 1604].

Definition tag_span (label : jstring) : jstring :=
  sq "<span class='tag'>" ++ label ++ lit "</span>".

Section Badge.
Context {NO : NumberOps}.

Definition badgeForResult (result : value) : jstring :=
  if strict_eq_str result (lit "success") then tag_span label_success
  else if strict_eq_str result (lit "partial") then tag_span label_partial
  else tag_span label_failure.

End Badge.

(** *** [show], [hide] and [alertBox]

    An element, as far as the three functions go: its tag, its [class]
    attribute, which may be missing, its other attributes and its text
    content. The argument [el] is an element or [null] (what
    [querySelector] returns); a function that changes the element returns
    its new state. *)

Record Element := mkElement {
  el_tag : jstring;
  el_class : option jstring;
  el_attrs : list (jstring * jstring);
  el_text : jstring;
}.

(** [el.classList], after the DOM standard. The token set of an element
    is its [class] attribute split on ASCII white space, each token kept
    once, at its first place. *)
Definition is_ascii_ws (c : N) : bool :=
  (c =? 9) || (c =? 10) || (c =? 12) || (c =? 13) || (c =? 32).

(** [split_ws cur s]: the tokens of [s], [cur] being the part of the
    current token already read. *)
Fixpoint split_ws (cur : jstring) (s : jstring) : list jstring :=
  match s with
  | [] => match cur with [] => [] | _ => [cur] end
  | c :: r =>
      if is_ascii_ws c then
        match cur with
        | [] => split_ws [] r
        | _ => cur :: split_ws [] r
        end
      else split_ws (cur ++ [c]) r
  end.

Definition in_set (t : jstring) (set : list jstring) : bool :=
  existsb (str_eqb t) set.

Definition set_append (set : list jstring) (t : jstring) : list jstring :=
  if in_set t set then set else set ++ [t].

Definition parse_tokens (s : jstring) : list jstring :=
  fold_left set_append (split_ws [] s) [].

Definition serialize_tokens (set : list jstring) : jstring :=
  concat_sep [32] set.

Definition class_tokens (e : Element) : list jstring :=
  parse_tokens (default [] (el_class e)).

Definition set_class (e : Element) (c : jstring) : Element :=
  {| el_tag := el_tag e; el_class := Some c; el_attrs := el_attrs e;
     el_text := el_text e |}.

(** [classList.add(t)] and [classList.remove(t)], for a token [t] that is
    not empty and has no white space. Both end with the update steps of
    the standard: the attribute becomes the tokens joined by single
    spaces, except that removing from an element without the attribute
    leaves it without one. *)
Definition classList_add (t : jstring) (e : Element) : Element :=
  set_class e (serialize_tokens (set_append (class_tokens e) t)).

Definition classList_remove (t : jstring) (e : Element) : Element :=
  let set := filter (fun x => negb (str_eqb x t)) (class_tokens e) in
  match el_class e, set with
  | None, [] => e
  | _, _ => set_class e (serialize_tokens set)
  end.

Definition show (el : option Element) : option Element :=
  match el with
  | None => None
  | Some e => Some (classList_remove (lit "hidden") e)
  end.

Definition hide (el : option Element) : option Element :=
  match el with
  | None => None
  | Some e => Some (classList_add (lit "hidden") e)
  end.

Section AlertBox.
Context {NO : NumberOps}.

(** [document.createElement(tag)]: an element without attributes or
    content. *)
Definition createElement (tag : jstring) : Element :=
  {| el_tag := tag; el_class := None; el_attrs := []; el_text := [] |}.

(** [el.textContent = v]: the content becomes the text of [v], taken as
    it is; [null] and [undefined] give the empty text. *)
Definition set_textContent (e : Element) (v : value) : result Element :=
  let* t := match v with
            | Undefined | Null => Ok []
            | _ => ToString v
            end in
  Ok {| el_tag := el_tag e; el_class := el_class e; el_attrs := el_attrs e;
        el_text := t |}.

(** [el.className = c] sets the [class] attribute. *)
Definition alertBox (type msg : value) : result Element :=
  let div := createElement (lit "div") in
  let* t := ToString type in
  let div := set_class div (lit "alert " ++ t) in
  set_textContent div msg.

End AlertBox.

(** *** [requireAuth]

    The argument, an options object or nothing, is destructured as
    [{ allowAnonymous = false } = {}]: a missing or [undefined]
    [allowAnonymous] is [false]. The function
    returns a value and may assign [window.location.href], which starts a
    navigation; the second component of the result is the address
    assigned, if any. *)

Section RequireAuth.
Context {NO : NumberOps}.

Record RequireOptions := mkRequireOptions {
  allowAnonymous : value;
}.

Definition requireAuth (opts : option RequireOptions) (st : Storage)
  : result (value * option jstring) :=
  let allow := match opts with
               | Some {| allowAnonymous := Undefined |} | None => Bool false
               | Some {| allowAnonymous := a |} => a
               end in
  let* auth := getAuth st in
  if negb (truthy auth) && negb (truthy allow)
  then Ok (Null, Some (lit "/login"))
  else Ok (auth, None).

End RequireAuth.

(** *** Definitions used to state the further properties *)

(** The five characters [escapeHtml] replaces. *)
Definition is_markup (c : N) : bool :=
  (c =? 38) || (c =? 60) || (c =? 62) || (c =? 34) || (c =? 39).

(** A token of a class list: not empty, without white space. *)
Definition token_ok (t : jstring) : Prop :=
  t <> [] /\ forallb (fun c => negb (is_ascii_ws c)) t = true.

Section FurtherStatements.
Context {NO : NumberOps}.

(** The payload of an [api] call: the argument after the identifier when
    the path has one, the first argument otherwise. *)
Definition payload_of (op : Operation) (args : list value) : value :=
  if has_param (ep_path (endpoint op)) then nth 1 args Undefined
  else nth 0 args Undefined.

End FurtherStatements.

(** * Properties *)

(** ** Strings *)

Lemma str_eqb_eq (a b : jstring) : str_eqb a b = true <-> a = b.
Proof.
  revert b; induction a as [|x a IH]; intros [|y b]; simpl; try easy.
  rewrite andb_true_iff, N.eqb_eq, IH. split.
  - intros [-> ->]; reflexivity.
  - intros [= -> ->]; auto.
Qed.

Lemma str_eqb_refl (a : jstring) : str_eqb a a = true.
Proof. apply str_eqb_eq; reflexivity. Qed.

Lemma str_eqb_neq (a b : jstring) : str_eqb a b = false <-> a <> b.
Proof.
  rewrite <- str_eqb_eq. destruct (str_eqb a b); split; congruence.
Qed.

(** ** Decimal numerals *)

Lemma dec_digits_spec (fuel : nat) :
  forall n acc, n < 10 ^ N.of_nat fuel ->
  exists ds,
    dec_digits fuel n acc = ds ++ acc
    /\ forallb is_digit ds = true
    /\ (forall a rest,
          digits_value (ds ++ rest) a
          = digits_value rest (a * 10 ^ N.of_nat (length ds) + n)).
Proof.
  induction fuel as [|fuel IH]; intros n acc Hn.
  { exists []. cbn in Hn. assert (n = 0) by lia. subst.
    repeat split. intros a rest. cbn. f_equal. lia. }
  cbn [dec_digits].
  pose proof (N.mod_lt n 10 ltac:(discriminate)) as Hm.
  pose proof (N.div_mod n 10 ltac:(discriminate)) as Hdm.
  remember (n mod 10) as d eqn:Ed. remember (n / 10) as q eqn:Eq.
  assert (Hd : is_digit (48 + d) = true).
  { unfold is_digit. apply andb_true_iff. split; apply N.leb_le; lia. }
  assert (Hsub : 48 + d - 48 = d) by lia.
  destruct (N.ltb_spec n 10) as [Hlt|Hge].
  - exists [48 + d]. split; [reflexivity|]. split.
    + cbn [forallb]. rewrite Hd. reflexivity.
    + intros a rest. cbn [app digits_value length]. rewrite Hd, Hsub.
      f_equal. change (N.of_nat 1) with 1. lia.
  - assert (Hq : q < 10 ^ N.of_nat fuel).
    { rewrite Nat2N.inj_succ, N.pow_succ_r' in Hn. nia. }
    destruct (IH q ((48 + d) :: acc) Hq) as (ds & Heq & Hdig & Hval).
    exists (ds ++ [48 + d]). split; [|split].
    + rewrite Heq, <- app_assoc. reflexivity.
    + rewrite forallb_app, Hdig. cbn [forallb]. rewrite Hd. reflexivity.
    + intros a rest. rewrite <- app_assoc, Hval.
      cbn [app digits_value]. rewrite Hd, Hsub. f_equal.
      rewrite length_app. cbn [length].
      rewrite Nat.add_1_r, Nat2N.inj_succ, N.pow_succ_r'. lia.
Qed.

(** [N_to_string n] is a decimal numeral of [n]: digits only, whose value
    is [n]. *)
Lemma N_to_string_value (n : N) :
  forallb is_digit (N_to_string n) = true
  /\ digits_value (N_to_string n) 0 = n.
Proof.
  unfold N_to_string.
  assert (Hn : n < 10 ^ N.of_nat (S (N.to_nat (N.log2 n)))).
  { rewrite Nat2N.inj_succ, N2Nat.id.
    destruct n as [|p]; [reflexivity|].
    pose proof (N.log2_spec (Npos p) ltac:(reflexivity)) as [_ Hlog].
    eapply N.lt_le_trans; [exact Hlog|].
    apply N.pow_le_mono_l. lia. }
  destruct (dec_digits_spec _ n [] Hn) as (ds & Heq & Hdig & Hval).
  rewrite Heq, app_nil_r. split; [exact Hdig|].
  specialize (Hval 0 []). rewrite app_nil_r in Hval. rewrite Hval.
  reflexivity.
Qed.

(** ** JSON: what is written is read back *)

(** *** Strings *)

Lemma hex_value_lower (d : N) : d < 16 -> hex_value (hex_lower d) = Some d.
Proof.
  intros Hd. unfold hex_value, hex_lower, is_digit.
  destruct (N.ltb_spec d 10).
  - replace (48 <=? 48 + d) with true by (symmetry; apply N.leb_le; lia).
    replace (48 + d <=? 57) with true by (symmetry; apply N.leb_le; lia).
    cbn [andb]. f_equal. lia.
  - replace (87 + d <=? 57) with false by (symmetry; apply N.leb_gt; lia).
    rewrite andb_false_r.
    replace (97 <=? 87 + d) with true by (symmetry; apply N.leb_le; lia).
    replace (87 + d <=? 102) with true by (symmetry; apply N.leb_le; lia).
    cbn [andb]. f_equal. lia.
Qed.

Lemma hex4_digits (c : N) :
  c < 65536 ->
  hex4 (hex_lower (c / 4096 mod 16)) (hex_lower (c / 256 mod 16))
       (hex_lower (c / 16 mod 16)) (hex_lower (c mod 16)) = Some c.
Proof.
  intros Hc. unfold hex4.
  rewrite !hex_value_lower by (apply N.mod_lt; discriminate).
  f_equal.
  assert (H1 := N.div_mod c 16 ltac:(discriminate)).
  assert (H2 := N.div_mod (c / 16) 16 ltac:(discriminate)).
  assert (H3 := N.div_mod (c / 256) 16 ltac:(discriminate)).
  assert (H4 : c / 4096 < 16) by (apply N.Div0.div_lt_upper_bound; lia).
  rewrite (N.mod_small (c / 4096) 16 H4).
  replace (c / 16 / 16) with (c / 256) in H2
    by (rewrite N.Div0.div_div; reflexivity).
  replace (c / 256 / 16) with (c / 4096) in H3
    by (rewrite N.Div0.div_div; reflexivity).
  lia.
Qed.

Lemma short_escape_unescape (c e : N) :
  short_escape c = Some e -> (e =? 117) = false /\ unescape e = Some c.
Proof.
  unfold short_escape.
  repeat match goal with
         | |- context [c =? ?k] => destruct (N.eqb_spec c k); [subst|]
         end;
    intros [= <-]; split; reflexivity.
Qed.

Lemma short_escape_none (c : N) :
  short_escape c = None -> (c =? 34) = false /\ (c =? 92) = false.
Proof.
  unfold short_escape.
  repeat match goal with
         | |- context [c =? ?k] => destruct (N.eqb_spec c k); [subst|]
         end;
    try discriminate.
  intros _. split; reflexivity.
Qed.

(** A character that needs no escape is read as itself. *)
Lemma parse_string_plain (c : N) (r : jstring) :
  (c =? 34) = false -> (c =? 92) = false -> (c <? 32) = false ->
  parse_string (c :: r) = cons_fst c (parse_string r).
Proof. intros H1 H2 H3. cbn [parse_string]. rewrite H1, H2, H3. reflexivity. Qed.

Lemma parse_string_unicode (c : N) (r : jstring) :
  c < 65536 ->
  parse_string (unicode_escape c ++ r) = cons_fst c (parse_string r).
Proof.
  intros Hc. unfold unicode_escape. cbn [app parse_string].
  change (92 =? 34) with false. change (92 =? 92) with true.
  change (117 =? 117) with true. cbn iota.
  rewrite hex4_digits by assumption. reflexivity.
Qed.

Lemma surrogate_bounds (c : N) :
  (is_high_surrogate c = true \/ is_low_surrogate c = true) ->
  c < 65536 /\ (c =? 34) = false /\ (c =? 92) = false /\ (c <? 32) = false.
Proof.
  unfold is_high_surrogate, is_low_surrogate.
  rewrite !andb_true_iff, !N.leb_le.
  intros H. repeat split; try lia;
    try (apply N.eqb_neq; lia); apply N.ltb_ge; lia.
Qed.

Lemma parse_string_quote_units (s rest : jstring) :
  parse_string (quote_units s ++ 34 :: rest) = Some (s, rest).
Proof.
  remember (length s) as n eqn:Hn.
  assert (Hle : (length s <= n)%nat) by lia. clear Hn.
  revert s Hle. induction n as [|n IH]; intros s Hle.
  { destruct s; [reflexivity | simpl in Hle; lia]. }
  destruct s as [|c r]; [reflexivity|].
  cbn [length] in Hle.
  assert (IHr : parse_string (quote_units r ++ 34 :: rest) = Some (r, rest))
    by (apply IH; lia).
  cbn [quote_units].
  destruct (short_escape c) as [e|] eqn:Hse.
  - destruct (short_escape_unescape _ _ Hse) as [Hu He].
    cbn [app parse_string].
    change (92 =? 34) with false. change (92 =? 92) with true. cbn iota.
    rewrite Hu, He, IHr. reflexivity.
  - destruct (short_escape_none _ Hse) as [Hq Hb].
    destruct (c <? 32) eqn:Hctl.
    + rewrite <- app_assoc, parse_string_unicode, IHr; [reflexivity|].
      apply N.ltb_lt in Hctl. lia.
    + destruct (is_high_surrogate c) eqn:Hhi.
      * destruct (surrogate_bounds c (or_introl Hhi)) as (Hc & _).
        destruct r as [|d r'].
        -- rewrite parse_string_unicode by assumption. reflexivity.
        -- destruct (is_low_surrogate d) eqn:Hlo.
           ++ destruct (surrogate_bounds d (or_intror Hlo)) as (_ & Hdq & Hdb & Hdc).
              cbn [app].
              rewrite parse_string_plain by assumption.
              rewrite parse_string_plain by assumption.
              rewrite IH by (cbn [length] in Hle; lia). reflexivity.
           ++ rewrite <- app_assoc, parse_string_unicode, IHr by assumption.
              reflexivity.
      * destruct (is_low_surrogate c) eqn:Hlo.
        -- destruct (surrogate_bounds c (or_intror Hlo)) as (Hc & _).
           rewrite <- app_assoc, parse_string_unicode, IHr by assumption.
           reflexivity.
        -- cbn [app]. rewrite parse_string_plain, IHr by assumption.
           reflexivity.
Qed.

(** *** Number tokens *)

(** A character that ends a value continues no number token. *)
Lemma num_step_delimiter (st : num_state) (c : N) :
  c = 44 \/ c = 93 \/ c = 125 -> num_step st c = None.
Proof. intros [-> | [-> | ->]]; destruct st; reflexivity. Qed.

Lemma scan_number_app (st : num_state) (tok rest : jstring) :
  delimited rest ->
  scan_number st tok = Some (tok, []) ->
  scan_number st (tok ++ rest) = Some (tok, rest).
Proof.
  intros Hrest. revert st. induction tok as [|c tok IH]; intros st.
  - cbn [scan_number app]. destruct (num_final st) eqn:Hf; [|discriminate].
    intros _. destruct rest as [|d rest]; cbn [scan_number].
    + rewrite Hf. reflexivity.
    + rewrite (num_step_delimiter st d Hrest), Hf. reflexivity.
  - cbn [scan_number app].
    destruct (num_step st c) as [st'|].
    + destruct (scan_number st' tok) as [[tok' r']|] eqn:Hs; [|discriminate].
      cbn [cons_fst]. intros [= -> ->]. rewrite (IH st' Hs). reflexivity.
    + destruct (num_final st); discriminate.
Qed.

(** A number token begins with a minus sign or a digit. *)
Lemma lex_number_head (tok : jstring) :
  lex_number tok = Some (tok, []) ->
  exists c r, tok = c :: r /\ ((c =? 45) || is_digit c) = true.
Proof.
  unfold lex_number. destruct tok as [|c r]; [discriminate|].
  cbn [scan_number num_step]. intros H. exists c, r. split; [reflexivity|].
  destruct (c =? 45); [reflexivity|].
  destruct (N.eqb_spec c 48) as [->|]; [reflexivity|].
  destruct (is_digit c); [reflexivity | discriminate].
Qed.

Lemma digit_or_minus_head (c : N) :
  ((c =? 45) || is_digit c) = true ->
  is_ws c = false /\ (c =? 123) = false /\ (c =? 91) = false
  /\ (c =? 34) = false /\ (c =? 93) = false.
Proof.
  unfold is_digit, is_ws.
  rewrite orb_true_iff, andb_true_iff, N.eqb_eq, !N.leb_le.
  intros H.
  repeat match goal with
         | |- context [c =? ?k] =>
             destruct (N.eqb_spec c k); [exfalso; lia|]
         end.
  repeat split.
Qed.

(** *** Objects *)

Section ObjectFacts.
Context {NO : NumberOps}.

Lemma own_prop_not_key (k : jstring) (ps : list (jstring * value)) :
  ~ In k (map fst ps) -> own_prop k ps = None.
Proof.
  induction ps as [|[k' v] ps IH]; [reflexivity|].
  cbn [map fst In own_prop]. intros H.
  destruct (str_eqb k k') eqn:E.
  - apply str_eqb_eq in E. subst. tauto.
  - apply IH. tauto.
Qed.

Lemma keys_in_order_prefix (b : option N) (t : bool) (l1 l2 : list jstring) :
  keys_in_order b t (l1 ++ l2) = true -> keys_in_order b t l1 = true.
Proof.
  revert b t. induction l1 as [|k l1 IH]; intros b t; [reflexivity|].
  cbn [app keys_in_order]. destruct (array_index k).
  - rewrite !andb_true_iff. intros [H1 H2]. split; [exact H1 | eauto].
  - apply IH.
Qed.

(** Before an array index come only smaller array indices. *)
Lemma keys_in_order_last (b : option N) (t : bool) (l : list jstring)
  (k : jstring) (n : N) :
  keys_in_order b t (l ++ [k]) = true ->
  array_index k = Some n ->
  t = false
  /\ match b with Some m => m < n | None => True end
  /\ Forall (fun k' => exists m, array_index k' = Some m /\ m < n) l.
Proof.
  intros H Hk. revert b t H. induction l as [|k1 l IH]; intros b t.
  - cbn [app keys_in_order]. rewrite Hk, !andb_true_iff, negb_true_iff.
    intros [[Ht Hb] _]. split; [exact Ht|]. split; [|constructor].
    destruct b; [apply N.ltb_lt, Hb | exact I].
  - cbn [app keys_in_order]. destruct (array_index k1) as [m|] eqn:Hk1.
    + rewrite !andb_true_iff, negb_true_iff. intros [[Ht Hb] Hrest].
      destruct (IH _ _ Hrest) as (_ & Hm & Hall).
      split; [exact Ht|]. split.
      * destruct b as [b|]; [|exact I]. apply N.ltb_lt in Hb. lia.
      * constructor; [eauto | exact Hall].
    + intros Hrest. destruct (IH _ _ Hrest) as (Habs & _). discriminate.
Qed.

Lemma insert_index_last (n : N) (k : jstring) (v : value)
  (ps : list (jstring * value)) :
  Forall (fun k' => exists m, array_index k' = Some m /\ m < n) (map fst ps) ->
  insert_index n k v ps = ps ++ [(k, v)].
Proof.
  induction ps as [|[k' v'] ps IH]; [reflexivity|].
  cbn [map fst]. intros H. inversion H as [|? ? (m & Hm & Hlt) Hrest]; subst.
  cbn [insert_index app]. rewrite Hm.
  apply N.ltb_lt in Hlt. rewrite Hlt, IH by assumption. reflexivity.
Qed.

(** A new key that keeps the order goes last. *)
Lemma set_prop_last (k : jstring) (v : value) (ps : list (jstring * value)) :
  own_keys_ok (map fst ps ++ [k]) ->
  set_prop k v ps = ps ++ [(k, v)].
Proof.
  intros [Hnd Hord]. unfold set_prop, has_own.
  rewrite own_prop_not_key.
  - destruct (array_index k) as [n|] eqn:Hk; [|reflexivity].
    apply insert_index_last.
    destruct (keys_in_order_last _ _ _ _ _ Hord Hk) as (_ & _ & H). exact H.
  - apply NoDup_app in Hnd. destruct Hnd as (_ & Hdisj & _).
    intros Hin. apply (Hdisj k); [apply list_elem_of_In, Hin | left].
Qed.

Lemma own_keys_ok_prefix (l1 l2 : list jstring) :
  own_keys_ok (l1 ++ l2) -> own_keys_ok l1.
Proof.
  intros [Hnd Hord]. split.
  - apply NoDup_app in Hnd. tauto.
  - eapply keys_in_order_prefix, Hord.
Qed.

(** The members of an object in key order build that object. *)
Lemma build_object_ordered (ps : list (jstring * value)) :
  own_keys_ok (map fst ps) -> build_object ps = ps.
Proof.
  unfold build_object.
  enough (H : forall done todo,
             own_keys_ok (map fst (done ++ todo)) ->
             fold_left (fun ps kv => set_prop (fst kv) (snd kv) ps) todo done
             = done ++ todo)
    by (intros Hok; apply (H [] ps Hok)).
  intros done todo. revert done.
  induction todo as [|[k v] todo IH]; intros done Hok.
  - rewrite app_nil_r. reflexivity.
  - cbn [fold_left fst snd].
    replace (done ++ (k, v) :: todo) with ((done ++ [(k, v)]) ++ todo) in *
      by (rewrite <- app_assoc; reflexivity).
    rewrite set_prop_last.
    + apply IH. exact Hok.
    + rewrite map_app in Hok. apply own_keys_ok_prefix in Hok.
      rewrite map_app in Hok. exact Hok.
Qed.

End ObjectFacts.

(** *** Values *)

Lemma concat_sep_cons (sep p : jstring) (parts : list jstring) :
  parts <> [] ->
  concat_sep sep (p :: parts) = p ++ sep ++ concat_sep sep parts.
Proof. destruct parts; [congruence | reflexivity]. Qed.

Lemma next_is_here (c : N) (r : jstring) :
  is_ws c = false -> next_is c (c :: r) = Some r.
Proof.
  intros Hc. unfold next_is. cbn [skip_ws]. rewrite Hc, N.eqb_refl. reflexivity.
Qed.

Lemma next_is_other (c d : N) (r : jstring) :
  is_ws d = false -> (d =? c) = false -> next_is c (d :: r) = None.
Proof.
  intros Hd Hne. unfold next_is. cbn [skip_ws]. rewrite Hd, Hne. reflexivity.
Qed.

Section RoundTrip.
Context {NO : NumberOps}.

Lemma parse_value_S (fuel : nat) (s : jstring) :
  parse_value (S fuel) s =
    match skip_ws s with
    | [] => None
    | c :: r =>
        if c =? 123 then
          match next_is 125 r with
          | Some r' => Some (Obj [], r')
          | None =>
              match parse_members fuel r with
              | Some (ms, r') => Some (Obj (build_object ms), r')
              | None => None
              end
          end
        else if c =? 91 then
          match next_is 93 r with
          | Some r' => Some (Arr [], r')
          | None =>
              match parse_elements fuel r with
              | Some (vs, r') => Some (Arr vs, r')
              | None => None
              end
          end
        else if c =? 34 then
          match parse_string r with
          | Some (str, r') => Some (Str str, r')
          | None => None
          end
        else if (c =? 45) || is_digit c then
          match lex_number (c :: r) with
          | Some (tok, r') => Some (Num (number_of_literal tok), r')
          | None => None
          end
        else
          match strip_prefix (lit "true") (c :: r) with
          | Some r' => Some (Bool true, r')
          | None =>
              match strip_prefix (lit "false") (c :: r) with
              | Some r' => Some (Bool false, r')
              | None =>
                  match strip_prefix (lit "null") (c :: r) with
                  | Some r' => Some (Null, r')
                  | None => None
                  end
              end
          end
    end.
Proof. reflexivity. Qed.

Lemma parse_elements_S (fuel : nat) (s : jstring) :
  parse_elements (S fuel) s =
    match parse_value fuel s with
    | None => None
    | Some (v, r) =>
        match next_is 44 r with
        | Some r' => cons_fst v (parse_elements fuel r')
        | None =>
            match next_is 93 r with
            | Some r' => Some ([v], r')
            | None => None
            end
        end
    end.
Proof. reflexivity. Qed.

Lemma parse_members_S (fuel : nat) (s : jstring) :
  parse_members (S fuel) s =
    match next_is 34 s with
    | None => None
    | Some r =>
        match parse_string r with
        | None => None
        | Some (k, r1) =>
            match next_is 58 r1 with
            | None => None
            | Some r2 =>
                match parse_value fuel r2 with
                | None => None
                | Some (v, r3) =>
                    match next_is 44 r3 with
                    | Some r4 => cons_fst (k, v) (parse_members fuel r4)
                    | None =>
                        match next_is 125 r3 with
                        | Some r4 => Some ([(k, v)], r4)
                        | None => None
                        end
                    end
                end
            end
        end
    end.
Proof. reflexivity. Qed.

Lemma json_data_text (v : value) :
  json_data v -> exists t, stringify v = Some t.
Proof. destruct 1; cbn [stringify]; eauto. Qed.

(** The text of a value begins with a character that is no white space
    and no closing bracket. *)
Lemma value_text_head (v : value) (t : jstring) :
  json_data v -> stringify v = Some t ->
  exists c r, t = c :: r /\ is_ws c = false /\ (c =? 93) = false.
Proof.
  destruct 1 as [|b|n Hn|s|l _|ps _ _]; cbn [stringify]; intros [= <-].
  - do 2 eexists. split; [reflexivity|]. split; reflexivity.
  - destruct b; do 2 eexists; (split; [reflexivity|]); split; reflexivity.
  - destruct Hn as (Hfin & Hlex & _). rewrite Hfin.
    destruct (lex_number_head _ Hlex) as (c & r & -> & Hc).
    destruct (digit_or_minus_head c Hc) as (? & _ & _ & _ & ?).
    exists c, r. auto.
  - do 2 eexists. split; [reflexivity|]. split; reflexivity.
  - do 2 eexists. split; [reflexivity|]. split; reflexivity.
  - do 2 eexists. split; [reflexivity|]. split; reflexivity.
Qed.

Lemma elements_read_back (l : list value) :
  Forall json_data l -> Forall reads_back l -> l <> [] ->
  forall fuel rest, (elements_size l <= fuel)%nat -> delimited rest ->
  parse_elements fuel (concat_sep [44] (elements_text l) ++ 93 :: rest)
  = Some (l, rest).
Proof.
  induction l as [|v l IH]; [congruence|].
  intros Hjd Hrb _ fuel rest Hfuel Hrest.
  inversion Hjd as [|? ? Hv Hl]; subst. inversion Hrb as [|? ? Rv Rl]; subst.
  destruct (json_data_text v Hv) as [t Ht].
  cbn [elements_size fold_right] in Hfuel. fold (elements_size l) in Hfuel.
  destruct fuel as [|fuel]; [lia|].
  rewrite parse_elements_S. cbn [elements_text map]. rewrite Ht. cbn [from_option id].
  fold (elements_text l).
  destruct l as [|v2 l].
  - cbn [elements_text map concat_sep].
    rewrite (Rv t Ht fuel (93 :: rest)); [|lia|cbn; tauto].
    rewrite next_is_other, next_is_here by reflexivity. reflexivity.
  - rewrite concat_sep_cons by discriminate.
    rewrite <- !app_assoc. cbn [app].
    rewrite (Rv t Ht fuel (44 :: _)); [|lia|cbn; tauto].
    rewrite next_is_here by reflexivity.
    rewrite IH; [reflexivity| assumption | assumption | discriminate | lia
                | assumption].
Qed.

Lemma members_text_cons (k : jstring) (v : value) (t : jstring)
  (ps : list (jstring * value)) :
  stringify v = Some t ->
  members_text ((k, v) :: ps) = (quote k ++ 58 :: t) :: members_text ps.
Proof. intros H. unfold members_text. cbn [flat_map snd fst]. rewrite H. reflexivity. Qed.

Lemma members_read_back (ps : list (jstring * value)) :
  Forall (fun kv => json_data (snd kv)) ps ->
  Forall (fun kv => reads_back (snd kv)) ps -> ps <> [] ->
  forall fuel rest, (members_size ps <= fuel)%nat -> delimited rest ->
  parse_members fuel (concat_sep [44] (members_text ps) ++ 125 :: rest)
  = Some (ps, rest).
Proof.
  induction ps as [|[k v] ps IH]; [congruence|].
  intros Hjd Hrb _ fuel rest Hfuel Hrest.
  inversion Hjd as [|? ? Hv Hl]; subst. inversion Hrb as [|? ? Rv Rl]; subst.
  cbn [snd] in Hv, Rv.
  destruct (json_data_text v Hv) as [t Ht].
  cbn [members_size fold_right snd] in Hfuel. fold (members_size ps) in Hfuel.
  destruct fuel as [|fuel]; [lia|].
  rewrite parse_members_S, (members_text_cons k v t ps Ht).
  destruct ps as [|[k2 v2] ps].
  - cbn [members_text flat_map concat_sep]. unfold quote.
    cbn [app]. rewrite <- !app_assoc. cbn [app].
    rewrite next_is_here by reflexivity.
    rewrite parse_string_quote_units.
    rewrite next_is_here by reflexivity.
    rewrite (Rv t Ht fuel (125 :: rest)); [|lia|cbn; tauto].
    rewrite next_is_other, next_is_here by reflexivity. reflexivity.
  - inversion Hl as [|? ? Hv2 _]; subst. cbn [snd] in Hv2.
    destruct (json_data_text v2 Hv2) as [t2 Ht2].
    rewrite concat_sep_cons
      by (rewrite (members_text_cons k2 v2 t2 ps Ht2); discriminate).
    unfold quote. cbn [app]. rewrite <- !app_assoc. cbn [app].
    rewrite next_is_here by reflexivity.
    rewrite parse_string_quote_units.
    rewrite next_is_here by reflexivity.
    rewrite (Rv t Ht fuel (44 :: _)); [|lia|cbn; tauto].
    rewrite next_is_here by reflexivity.
    rewrite IH; [reflexivity| assumption | assumption | discriminate | lia
                | assumption].
Qed.

End RoundTrip.

Section RoundTripValues.
Context {NO : NumberOps}.

Lemma next_is_elements (l : list value) (rest : jstring) :
  Forall json_data l -> l <> [] ->
  next_is 93 (concat_sep [44] (elements_text l) ++ rest) = None.
Proof.
  destruct l as [|v l]; [congruence|]. intros Hjd _.
  inversion Hjd as [|? ? Hv _]; subst.
  destruct (json_data_text v Hv) as [t Ht].
  destruct (value_text_head v t Hv Ht) as (c & r & -> & Hws & Hc).
  cbn [elements_text map]. rewrite Ht. cbn [from_option id].
  destruct (map _ l) as [|t2 ts]; cbn [concat_sep app];
    apply next_is_other; assumption.
Qed.

Lemma next_is_members (ps : list (jstring * value)) (rest : jstring) :
  Forall (fun kv => json_data (snd kv)) ps -> ps <> [] ->
  next_is 125 (concat_sep [44] (members_text ps) ++ rest) = None.
Proof.
  destruct ps as [|[k v] ps]; [congruence|]. intros Hjd _.
  inversion Hjd as [|? ? Hv _]; subst. cbn [snd] in Hv.
  destruct (json_data_text v Hv) as [t Ht].
  rewrite (members_text_cons k v t ps Ht). unfold quote.
  destruct (members_text ps) as [|t2 ts]; cbn [concat_sep app];
    apply next_is_other; reflexivity.
Qed.

Lemma stringify_Arr (l : list value) :
  stringify (Arr l) = Some (91 :: concat_sep [44] (elements_text l) ++ [93]).
Proof. reflexivity. Qed.

Lemma stringify_Obj (ps : list (jstring * value)) :
  stringify (Obj ps) = Some (123 :: concat_sep [44] (members_text ps) ++ [125]).
Proof. reflexivity. Qed.

Lemma Forall_reads_back {A} (f : A -> value) (l : list A) :
  Forall (fun x => json_data (f x) -> reads_back (f x)) l ->
  Forall (fun x => json_data (f x)) l ->
  Forall (fun x => reads_back (f x)) l.
Proof.
  induction 1 as [|x l Hx _ IH]; intros Hjd; constructor;
    inversion Hjd; subst; auto.
Qed.

(** Every JSON data value is read back from its text. *)
Lemma json_data_reads_back (v : value) : json_data v -> reads_back v.
Proof.
  induction v as [| |b|n|s|l IHl|ps IHps] using value_ind;
    intros Hjd t Ht fuel rest Hfuel Hrest;
    try (inversion Hjd; fail);
    (destruct fuel as [|fuel]; [cbn [size] in Hfuel; lia|]).
  - injection Ht as <-. reflexivity.
  - injection Ht as <-. destruct b; reflexivity.
  - inversion Hjd as [| |? (Hfin & Hlex & Hval)| | |]; subst.
    cbn [stringify] in Ht. rewrite Hfin in Ht. injection Ht as <-.
    destruct (lex_number_head _ Hlex) as (c & r & Hcr & Hc).
    rewrite Hcr in *.
    destruct (digit_or_minus_head c Hc) as (Hws & H1 & H2 & H3 & _).
    rewrite parse_value_S. cbn [app skip_ws]. rewrite Hws, H1, H2, H3, Hc.
    unfold lex_number in *.
    change (c :: r ++ rest) with ((c :: r) ++ rest).
    rewrite (scan_number_app NStart (c :: r) rest Hrest Hlex), Hval.
    reflexivity.
  - injection Ht as <-.
    rewrite parse_value_S. unfold quote. cbn [app skip_ws].
    change (is_ws 34) with false. cbn iota.
    change (34 =? 123) with false. change (34 =? 91) with false.
    change (34 =? 34) with true. cbn iota.
    rewrite <- app_assoc. cbn [app].
    rewrite parse_string_quote_units. reflexivity.
  - inversion Hjd as [| | | |? Hl|]; subst.
    assert (Rl : Forall reads_back l)
      by (apply (Forall_reads_back (fun x => x)); assumption).
    rewrite stringify_Arr in Ht. injection Ht as <-.
    rewrite parse_value_S. cbn [app skip_ws].
    change (is_ws 91) with false. cbn iota.
    change (91 =? 123) with false. change (91 =? 91) with true. cbn iota.
    rewrite <- app_assoc. cbn [app].
    destruct l as [|v l].
    + cbn [elements_text map concat_sep app].
      rewrite next_is_here by reflexivity. reflexivity.
    + rewrite next_is_elements by (assumption || discriminate).
      rewrite elements_read_back;
        [reflexivity | assumption | assumption | discriminate | | assumption].
      cbn [size] in Hfuel. fold (elements_size (v :: l)) in Hfuel. lia.
  - inversion Hjd as [| | | | |? Hkeys Hps]; subst.
    assert (Rps : Forall (fun kv => reads_back (snd kv)) ps)
      by (apply (Forall_reads_back snd); assumption).
    rewrite stringify_Obj in Ht. injection Ht as <-.
    rewrite parse_value_S. cbn [app skip_ws].
    change (is_ws 123) with false. cbn iota.
    change (123 =? 123) with true. cbn iota.
    rewrite <- app_assoc. cbn [app].
    destruct ps as [|kv ps].
    + cbn [members_text flat_map concat_sep app].
      rewrite next_is_here by reflexivity. reflexivity.
    + rewrite next_is_members by (assumption || discriminate).
      rewrite members_read_back;
        [| assumption | assumption | discriminate | | assumption].
      * rewrite build_object_ordered by assumption. reflexivity.
      * cbn [size] in Hfuel. fold (members_size (kv :: ps)) in Hfuel. lia.
Qed.

End RoundTripValues.

Section RoundTripText.
Context {NO : NumberOps}.

Lemma elements_size_length (l : list value) :
  Forall json_data l ->
  Forall (fun v => forall t, stringify v = Some t -> (size v <= length t)%nat) l ->
  (elements_size l <= length (concat_sep [44%N] (elements_text l)) + 1)%nat.
Proof.
  induction l as [|v l IH]; intros Hjd Hsz; [cbn; lia|].
  inversion Hjd as [|? ? Hv Hl]; subst. inversion Hsz as [|? ? Sv Sl]; subst.
  destruct (json_data_text v Hv) as [t Ht]. specialize (Sv t Ht).
  specialize (IH Hl Sl).
  cbn [elements_size fold_right elements_text map]. rewrite Ht.
  cbn [from_option id]. fold (elements_size l). fold (elements_text l).
  destruct l as [|v2 l].
  - cbn [elements_text map concat_sep elements_size fold_right]. lia.
  - rewrite concat_sep_cons by discriminate.
    rewrite !length_app. cbn [length]. lia.
Qed.

Lemma members_size_length (ps : list (jstring * value)) :
  Forall (fun kv => json_data (snd kv)) ps ->
  Forall (fun kv => forall t, stringify (snd kv) = Some t
                              -> (size (snd kv) <= length t)%nat) ps ->
  (members_size ps <= length (concat_sep [44%N] (members_text ps)) + 1)%nat.
Proof.
  induction ps as [|[k v] ps IH]; intros Hjd Hsz; [cbn; lia|].
  inversion Hjd as [|? ? Hv Hl]; subst. inversion Hsz as [|? ? Sv Sl]; subst.
  cbn [snd] in Hv, Sv.
  destruct (json_data_text v Hv) as [t Ht]. specialize (Sv t Ht).
  specialize (IH Hl Sl).
  rewrite (members_text_cons k v t ps Ht).
  cbn [members_size fold_right snd]. fold (members_size ps).
  destruct ps as [|[k2 v2] ps].
  - cbn [members_text flat_map concat_sep members_size fold_right].
    rewrite length_app. cbn [length]. lia.
  - inversion Hl as [|? ? Hv2 _]; subst. cbn [snd] in Hv2.
    destruct (json_data_text v2 Hv2) as [t2 Ht2].
    rewrite concat_sep_cons
      by (rewrite (members_text_cons k2 v2 t2 ps Ht2); discriminate).
    rewrite !length_app. cbn [length]. lia.
Qed.

(** The text of a value is at least as long as the number of parser
    calls it needs. *)
Lemma text_size (v : value) :
  json_data v -> forall t, stringify v = Some t -> (size v <= length t)%nat.
Proof.
  induction v as [| |b|n|s|l IHl|ps IHps] using value_ind; intros Hjd t Ht;
    try (inversion Hjd; fail).
  - injection Ht as <-. cbn. lia.
  - injection Ht as <-. destruct b; cbn; lia.
  - inversion Hjd as [| |? (Hfin & Hlex & _)| | |]; subst.
    cbn [stringify] in Ht. rewrite Hfin in Ht. injection Ht as <-.
    destruct (lex_number_head _ Hlex) as (c & r & -> & _). cbn. lia.
  - injection Ht as <-. cbn. lia.
  - inversion Hjd as [| | | |? Hl|]; subst.
    rewrite stringify_Arr in Ht. injection Ht as <-.
    assert (Sl : Forall (fun v => forall t, stringify v = Some t
                                            -> (size v <= length t)%nat) l).
    { clear -IHl Hl. induction Hl; constructor; inversion IHl; subst; auto. }
    pose proof (elements_size_length l Hl Sl) as H.
    cbn [size length]. fold (elements_size l). rewrite length_app.
    cbn [length]. lia.
  - inversion Hjd as [| | | | |? Hkeys Hps]; subst.
    rewrite stringify_Obj in Ht. injection Ht as <-.
    assert (Sl : Forall (fun kv => forall t, stringify (snd kv) = Some t
                                   -> (size (snd kv) <= length t)%nat) ps).
    { clear -IHps Hps. induction Hps; constructor; inversion IHps; subst; auto. }
    pose proof (members_size_length ps Hps Sl) as H.
    cbn [size length]. fold (members_size ps). rewrite length_app.
    cbn [length]. lia.
Qed.

(** [JSON.parse(JSON.stringify(v))] is [v], for JSON data. *)
Lemma JSON_parse_stringify (v : value) (t : jstring) :
  json_data v -> stringify v = Some t -> JSON_parse t = Ok v.
Proof.
  intros Hjd Ht. unfold JSON_parse.
  pose proof (json_data_reads_back v Hjd t Ht (S (2 * length t)) []) as H.
  rewrite app_nil_r in H. rewrite H; [reflexivity| |exact I].
  pose proof (text_size v Hjd t Ht). lia.
Qed.

End RoundTripText.

(** ** JSON: the fuel of the parser is enough

    Every call of the parser that succeeds consumes input, so the depth
    of the calls is bounded by the length of the text, and the answer of
    [JSON.parse] is the answer for any larger fuel. *)

Lemma skip_ws_length (s : jstring) : (length (skip_ws s) <= length s)%nat.
Proof.
  induction s as [|c s IH]; [reflexivity|].
  cbn [skip_ws]. destruct (is_ws c); cbn [length]; lia.
Qed.

Lemma next_is_length (c : N) (s r : jstring) :
  next_is c s = Some r -> (length r < length s)%nat.
Proof.
  unfold next_is. pose proof (skip_ws_length s) as H.
  destruct (skip_ws s) as [|x r']; [discriminate|].
  destruct (x =? c); [|discriminate]. intros [= <-]. cbn [length] in H. lia.
Qed.

Lemma cons_fst_Some {A B} (a : A) (x : option (list A * B)) (l : list A) (b : B) :
  cons_fst a x = Some (l, b) -> exists l', x = Some (l', b) /\ l = a :: l'.
Proof. destruct x as [[l' b']|]; [|discriminate]. intros [= <- <-]. eauto. Qed.

Lemma parse_string_length (s k r : jstring) :
  parse_string s = Some (k, r) -> (length r < length s)%nat.
Proof.
  remember (length s) as n eqn:Hn.
  assert (Hle : (length s <= n)%nat) by lia. clear Hn.
  revert s k r Hle. induction n as [|n IH]; intros s k r Hle.
  { destruct s; [discriminate | simpl in Hle; lia]. }
  destruct s as [|c s]; [discriminate|]. cbn [length] in Hle |- *.
  cbn [parse_string].
  destruct (c =? 34); [intros [= <- <-]; lia|].
  destruct (c =? 92).
  - destruct s as [|e s]; [discriminate|]. cbn [length] in Hle |- *.
    destruct (e =? 117).
    + destruct s as [|h1 [|h2 [|h3 [|h4 s]]]]; try discriminate.
      cbn [length] in Hle |- *.
      destruct (hex4 h1 h2 h3 h4); [|discriminate].
      intros H. apply cons_fst_Some in H as (k' & H & _).
      apply IH in H; lia.
    + destruct (unescape e); [|discriminate].
      intros H. apply cons_fst_Some in H as (k' & H & _).
      apply IH in H; lia.
  - destruct (c <? 32); [discriminate|].
    intros H. apply cons_fst_Some in H as (k' & H & _).
    apply IH in H; lia.
Qed.

Lemma scan_number_length (st : num_state) (s tok r : jstring) :
  scan_number st s = Some (tok, r) ->
  length s = (length tok + length r)%nat.
Proof.
  revert st tok. induction s as [|c s IH]; intros st tok; cbn [scan_number].
  - destruct (num_final st); [|discriminate]. intros [= <- <-]. reflexivity.
  - destruct (num_step st c) as [st'|].
    + intros H. apply cons_fst_Some in H as (tok' & H & ->).
      apply IH in H. cbn [length]. lia.
    + destruct (num_final st); [|discriminate]. intros [= <- <-]. reflexivity.
Qed.

Lemma lex_number_length (s tok r : jstring) :
  lex_number s = Some (tok, r) -> (length r < length s)%nat.
Proof.
  unfold lex_number. intros H.
  pose proof (scan_number_length _ _ _ _ H) as Hlen.
  destruct tok as [|c tok]; [|cbn [length] in Hlen; lia].
  destruct s as [|c s]; cbn [scan_number] in H; [discriminate|].
  destruct (num_step NStart c); [|discriminate].
  apply cons_fst_Some in H as (? & _ & [=]).
Qed.

Lemma strip_prefix_length (p s r : jstring) :
  strip_prefix p s = Some r -> length s = (length p + length r)%nat.
Proof.
  revert s. induction p as [|x p IH]; intros s; cbn [strip_prefix].
  - intros [= <-]. reflexivity.
  - destruct s as [|y s]; [discriminate|].
    destruct (x =? y); [|discriminate]. intros H. apply IH in H.
    cbn [length]. lia.
Qed.

Section Fuel.
Context {NO : NumberOps}.

(** A successful call leaves less input than it was given. *)
Lemma parse_consumes (fuel : nat) :
  (forall s v r, parse_value fuel s = Some (v, r) -> (length r < length s)%nat)
  /\ (forall s vs r, parse_elements fuel s = Some (vs, r)
                     -> (length r < length s)%nat)
  /\ (forall s ms r, parse_members fuel s = Some (ms, r)
                     -> (length r < length s)%nat).
Proof.
  induction fuel as [|fuel (IHv & IHe & IHm)];
    [repeat split; intros; discriminate|].
  split; [|split].
  - intros s v r. rewrite parse_value_S.
    pose proof (skip_ws_length s) as Hws.
    destruct (skip_ws s) as [|c r0]; [discriminate|]. cbn [length] in Hws.
    destruct (c =? 123).
    { destruct (next_is 125 r0) as [r'|] eqn:Hn.
      - intros [= <- <-]. apply next_is_length in Hn. lia.
      - destruct (parse_members fuel r0) as [[ms r']|] eqn:Hm; [|discriminate].
        intros [= <- <-]. apply IHm in Hm. lia. }
    destruct (c =? 91).
    { destruct (next_is 93 r0) as [r'|] eqn:Hn.
      - intros [= <- <-]. apply next_is_length in Hn. lia.
      - destruct (parse_elements fuel r0) as [[vs r']|] eqn:He; [|discriminate].
        intros [= <- <-]. apply IHe in He. lia. }
    destruct (c =? 34).
    { destruct (parse_string r0) as [[str r']|] eqn:Hs; [|discriminate].
      intros [= <- <-]. apply parse_string_length in Hs. lia. }
    destruct ((c =? 45) || is_digit c).
    { destruct (lex_number (c :: r0)) as [[tok r']|] eqn:Hl; [|discriminate].
      intros [= <- <-]. apply lex_number_length in Hl. cbn [length] in Hl. lia. }
    destruct (strip_prefix (lit "true") (c :: r0)) as [r'|] eqn:H1.
    { intros [= <- <-]. apply strip_prefix_length in H1. cbn in H1. lia. }
    destruct (strip_prefix (lit "false") (c :: r0)) as [r'|] eqn:H2.
    { intros [= <- <-]. apply strip_prefix_length in H2. cbn in H2. lia. }
    destruct (strip_prefix (lit "null") (c :: r0)) as [r'|] eqn:H3;
      [|discriminate].
    intros [= <- <-]. apply strip_prefix_length in H3. cbn in H3. lia.
  - intros s vs r. rewrite parse_elements_S.
    destruct (parse_value fuel s) as [[v r1]|] eqn:Hv; [|discriminate].
    apply IHv in Hv.
    destruct (next_is 44 r1) as [r2|] eqn:Hc.
    + apply next_is_length in Hc. intros H.
      apply cons_fst_Some in H as (vs' & H & _). apply IHe in H. lia.
    + destruct (next_is 93 r1) as [r2|] eqn:Hb; [|discriminate].
      apply next_is_length in Hb. intros [= <- <-]. lia.
  - intros s ms r. rewrite parse_members_S.
    destruct (next_is 34 s) as [r1|] eqn:Hq; [|discriminate].
    apply next_is_length in Hq.
    destruct (parse_string r1) as [[k r2]|] eqn:Hk; [|discriminate].
    apply parse_string_length in Hk.
    destruct (next_is 58 r2) as [r3|] eqn:Hcol; [|discriminate].
    apply next_is_length in Hcol.
    destruct (parse_value fuel r3) as [[v r4]|] eqn:Hv; [|discriminate].
    apply IHv in Hv.
    destruct (next_is 44 r4) as [r5|] eqn:Hc.
    + apply next_is_length in Hc. intros H.
      apply cons_fst_Some in H as (ms' & H & _). apply IHm in H. lia.
    + destruct (next_is 125 r4) as [r5|] eqn:Hb; [|discriminate].
      apply next_is_length in Hb. intros [= <- <-]. lia.
Qed.

(** With fuel above twice the length of the input, the answer of the
    parser does not depend on the fuel. *)
Lemma parse_fuel_stable (n : nat) :
  forall s, (length s <= n)%nat ->
  (forall f1 f2, (2 * length s < f1)%nat -> (2 * length s < f2)%nat ->
                 parse_value f1 s = parse_value f2 s)
  /\ (forall f1 f2, (2 * length s + 1 < f1)%nat -> (2 * length s + 1 < f2)%nat ->
                    parse_elements f1 s = parse_elements f2 s)
  /\ (forall f1 f2, (2 * length s < f1)%nat -> (2 * length s < f2)%nat ->
                    parse_members f1 s = parse_members f2 s).
Proof.
  induction n as [n IH] using lt_wf_ind. intros s Hn.
  assert (IHv : forall r f1 f2,
             (length r < length s)%nat ->
             (2 * length r < f1)%nat -> (2 * length r < f2)%nat ->
             parse_value f1 r = parse_value f2 r).
  { intros r f1 f2 Hr. apply (IH (length r)); lia. }
  assert (IHe : forall r f1 f2,
             (length r < length s)%nat ->
             (2 * length r + 1 < f1)%nat -> (2 * length r + 1 < f2)%nat ->
             parse_elements f1 r = parse_elements f2 r).
  { intros r f1 f2 Hr. apply (IH (length r)); lia. }
  assert (IHm : forall r f1 f2,
             (length r < length s)%nat ->
             (2 * length r < f1)%nat -> (2 * length r < f2)%nat ->
             parse_members f1 r = parse_members f2 r).
  { intros r f1 f2 Hr. apply (IH (length r)); lia. }
  assert (Hval : forall f1 f2,
             (2 * length s < f1)%nat -> (2 * length s < f2)%nat ->
             parse_value f1 s = parse_value f2 s).
  { intros [|f1] [|f2] H1 H2; try lia. rewrite !parse_value_S.
    pose proof (skip_ws_length s) as Hws.
    destruct (skip_ws s) as [|c r0]; [reflexivity|]. cbn [length] in Hws.
    rewrite (IHm r0 f1 f2), (IHe r0 f1 f2) by lia. reflexivity. }
  split; [exact Hval|]. split.
  - intros [|f1] [|f2] H1 H2; try lia. rewrite !parse_elements_S.
    rewrite (Hval f1 f2) by lia.
    destruct (parse_value f2 s) as [[v r1]|] eqn:Hv; [|reflexivity].
    apply (proj1 (parse_consumes f2)) in Hv.
    destruct (next_is 44 r1) as [r2|] eqn:Hc; [|reflexivity].
    apply next_is_length in Hc.
    rewrite (IHe r2 f1 f2) by lia. reflexivity.
  - intros [|f1] [|f2] H1 H2; try lia. rewrite !parse_members_S.
    destruct (next_is 34 s) as [r1|] eqn:Hq; [|reflexivity].
    apply next_is_length in Hq.
    destruct (parse_string r1) as [[k r2]|] eqn:Hk; [|reflexivity].
    apply parse_string_length in Hk.
    destruct (next_is 58 r2) as [r3|] eqn:Hcol; [|reflexivity].
    apply next_is_length in Hcol.
    rewrite (IHv r3 f1 f2) by lia.
    destruct (parse_value f2 r3) as [[v r4]|] eqn:Hv; [|reflexivity].
    apply (proj1 (parse_consumes f2)) in Hv.
    destruct (next_is 44 r4) as [r5|] eqn:Hc; [|reflexivity].
    apply next_is_length in Hc.
    rewrite (IHm r5 f1 f2) by lia. reflexivity.
Qed.

(** [JSON.parse] does not run out of fuel: more fuel gives the same
    answer. *)
Lemma JSON_parse_fuel (text : jstring) (fuel : nat) :
  (2 * length text < fuel)%nat ->
  parse_value fuel text = parse_value (S (2 * length text)) text.
Proof.
  intros H. apply (proj1 (parse_fuel_stable (length text) text (le_n _))); lia.
Qed.

End Fuel.

(** ** The request gateway *)

Section GatewayFacts.
Context {NO : NumberOps}.

(** The body text always decodes: a parse failure is caught. *)
Lemma decode_body_total (text : jstring) :
  exists data, decode_body text = Ok data.
Proof.
  unfold decode_body, try_catch.
  destruct (truthy (Str text)); [destruct (JSON_parse text)|]; eauto.
Qed.

(** One call of [requestJson] is one call of [fetch], whatever the
    network answers. *)
Lemma run_requestJson (net : Network) (path : jstring) (opts : option Options) :
  run net (requestJson path opts) =
    ([request_of path opts],
     match net 0%nat (request_of path opts) with
     | Rejected t => Throws t
     | Resolved res => respond res
     end).
Proof.
  unfold run, requestJson, request_of; simpl.
  destruct (net 0%nat _) as [res|t]; [|reflexivity].
  unfold respond.
  destruct (decode_body (res_text res)) as [data|t]; simpl; [|reflexivity].
  destruct (res_ok res); simpl; [reflexivity|].
  destruct (http_error res data); reflexivity.
Qed.

(** [data && data.error] and [data.error] never raise: the guard keeps
    [null] and [undefined] away from the property read. *)
Lemma guarded_error_read (data : value) :
  (if truthy data then get_prop data (lit "error") else Ok data)
  = Ok (if truthy data then error_field data else data).
Proof.
  destruct data as [| |[]|n|[|]| |]; simpl;
    try destruct (number_truthy n); reflexivity.
Qed.

Lemma truthy_error_field (data : value) :
  truthy (if truthy data then error_field data else data)
  = truthy (error_field data).
Proof.
  destruct (truthy data) eqn:Hd; [reflexivity|].
  rewrite Hd. destruct data; try discriminate; reflexivity.
Qed.

Lemma new_Error_truthy (msg : value) :
  truthy msg = true ->
  new_Error msg = let* m := ToString msg in Ok (mkError m None None).
Proof. destruct msg; try discriminate; reflexivity. Qed.

Lemma http_error_eq (res : Response) (data : value) :
  http_error res data =
    if truthy (error_field data) then
      let* m := ToString (error_field data) in
      Ok (mkError m (Some (res_status res)) (Some data))
    else
      Ok (mkError (lit "HTTP " ++ N_to_string (res_status res))
            (Some (res_status res)) (Some data)).
Proof.
  unfold http_error. rewrite guarded_error_read. cbn [bind].
  rewrite truthy_error_field.
  destruct (truthy (error_field data)) eqn:Ht; [|reflexivity].
  assert (Hd : truthy data = true).
  { destruct data; try reflexivity; simpl in Ht; discriminate. }
  assert (Hg : get_prop data (lit "error") = Ok (error_field data)).
  { generalize (guarded_error_read data). rewrite Hd. auto. }
  rewrite Hg. cbn [bind]. rewrite (new_Error_truthy _ Ht).
  destruct (ToString (error_field data)); reflexivity.
Qed.

End GatewayFacts.

Section GatewayClaims.
Context {NO : NumberOps}.


(** C6. The code meets the claim except for one defect, which the
    theorem delimits. For a response that is not 2xx, lines 18-21 build an
    [Error] and give it the status code as [status] and the decoded body
    as [data], and the error thrown carries both; but [new Error(msg)] on
    line 18 raises before the two assignments when the body has a truthy
    [error] field whose conversion to a string raises, and then the
    exception that ends the call has neither field. No other case
    exists. *)
Theorem requestJson_error_fields
  (net : Network) (path : jstring) (opts : option Options) (res : Response) :
  net 0%nat (request_of path opts) = Resolved res ->
  res_ok res = false ->
  exists data,
    decode_body (res_text res) = Ok data /\
    ((exists e, snd (run net (requestJson path opts)) = Throws (UserError e)
                /\ err_status e = Some (res_status res)
                /\ err_data e = Some data)
     \/ (exists t, truthy (error_field data) = true
                   /\ ToString (error_field data) = Throws t
                   /\ snd (run net (requestJson path opts)) = Throws t)).
Proof.
  intros Hnet Hok.
  destruct (decode_body_total (res_text res)) as [data Hdata].
  exists data. split; [exact Hdata|].
  rewrite run_requestJson, Hnet. cbn [snd].
  unfold respond. rewrite Hdata. cbn [bind]. rewrite Hok. cbn [negb].
  rewrite http_error_eq.
  destruct (truthy (error_field data)) eqn:Ht.
  - destruct (ToString (error_field data)) as [m|t] eqn:Hm; cbn [bind].
    + left. eexists; repeat split; reflexivity.
    + right. exists t. auto.
  - cbn [bind]. left. eexists; repeat split; reflexivity.
Qed.

(** C2. A body text that is not empty and is not valid JSON decodes to
    [{ raw: text }]; the parse failure is caught, and a 2xx call returns
    that object. *)
Theorem requestJson_invalid_json
  (net : Network) (path : jstring) (opts : option Options) (res : Response)
  (t : thrown) :
  net 0%nat (request_of path opts) = Resolved res ->
  res_text res <> [] ->
  JSON_parse (res_text res) = Throws t ->
  decode_body (res_text res) = Ok (Obj [(lit "raw", Str (res_text res))]) /\
  (res_ok res = true ->
   snd (run net (requestJson path opts))
   = Ok (Obj [(lit "raw", Str (res_text res))])).
Proof.
  intros Hnet Hne Hparse.
  assert (Hd : decode_body (res_text res)
               = Ok (Obj [(lit "raw", Str (res_text res))])).
  { unfold decode_body. destruct (res_text res) as [|c r] eqn:Ht; [congruence|].
    cbn [truthy]. rewrite Hparse. reflexivity. }
  split; [exact Hd|]. intros Hok.
  rewrite run_requestJson, Hnet. cbn [snd].
  unfold respond. rewrite Hd, Hok. reflexivity.
Qed.

(** C3. A 2xx response with an empty body text makes [requestJson] return
    the empty object. *)
Theorem requestJson_empty_body
  (net : Network) (path : jstring) (opts : option Options) (res : Response) :
  net 0%nat (request_of path opts) = Resolved res ->
  res_ok res = true ->
  res_text res = [] ->
  snd (run net (requestJson path opts)) = Ok (Obj []).
Proof.
  intros Hnet Hok Ht.
  rewrite run_requestJson, Hnet. cbn [snd].
  unfold respond, decode_body. rewrite Ht, Hok. reflexivity.
Qed.

End GatewayClaims.



(** C6 at a response 404 with the body [Not Found]. *)
Lemma requestJson_error_fields_witness :
  exists data,
    decode_body (lit "Not Found") = Ok data /\
    ((exists e,
        snd (run (always (mkResponse 404 (lit "Not Found")))
               (requestJson (lit "/challenges/7") None))
        = Throws (UserError e)
        /\ err_status e = Some 404 /\ err_data e = Some data)
     \/ (exists t, truthy (error_field data) = true
                   /\ ToString (error_field data) = Throws t
                   /\ snd (run (always (mkResponse 404 (lit "Not Found")))
                             (requestJson (lit "/challenges/7") None))
                      = Throws t)).
Proof.
  exact (requestJson_error_fields
           (always (mkResponse 404 (lit "Not Found")))
           (lit "/challenges/7") None (mkResponse 404 (lit "Not Found"))
           eq_refl eq_refl).
Defined.

(** C6, the failing input: for the body [{"error":{"toString":1}}] with
    status 500, the [error] field is an object, hence truthy, whose own
    [toString] property is not callable; [new Error(msg)] converts [msg]
    to a string, the conversion raises [TypeError], and that is the
    exception the call ends with: lines 19-20 are not reached, so it has
    no [status] and no [data]. *)
Lemma requestJson_error_fields_counterexample :
  res_ok (mkResponse 500 (sq "{'error':{'toString':1}}")) = false /\
  snd (run (always (mkResponse 500 (sq "{'error':{'toString':1}}")))
         (requestJson (lit "/login") None))
  = Throws (EngineError TypeError).
Proof. split; reflexivity. Qed.

(** C2 at a response 200 whose body is an HTML page. *)
Lemma requestJson_invalid_json_witness :
  decode_body (lit "<html>Bad Gateway</html>")
  = Ok (Obj [(lit "raw", Str (lit "<html>Bad Gateway</html>"))]) /\
  (res_ok (mkResponse 200 (lit "<html>Bad Gateway</html>")) = true ->
   snd (run (always (mkResponse 200 (lit "<html>Bad Gateway</html>")))
          (requestJson (lit "/challenges") None))
   = Ok (Obj [(lit "raw", Str (lit "<html>Bad Gateway</html>"))])).
Proof.
  refine (requestJson_invalid_json
            (always (mkResponse 200 (lit "<html>Bad Gateway</html>")))
            (lit "/challenges") None
            (mkResponse 200 (lit "<html>Bad Gateway</html>"))
            (EngineError SyntaxError) eq_refl _ eq_refl).
  discriminate.
Defined.

(** C3 at a response 204 without body. *)
Lemma requestJson_empty_body_witness :
  snd (run (always (mkResponse 204 []))
         (requestJson (lit "/test_cases/3") (api.del Undefined)))
  = Ok (Obj []).
Proof.
  exact (requestJson_empty_body (always (mkResponse 204 []))
           (lit "/test_cases/3") (api.del Undefined) (mkResponse 204 [])
           eq_refl eq_refl eq_refl).
Defined.

Section RequestClaims.
Context {NO : NumberOps}.

(** A truthy value always has a JSON text. *)
Lemma stringify_truthy (v : value) :
  truthy v = true -> exists t, stringify v = Some t.
Proof. destruct v; try discriminate; simpl; eauto. Qed.

(** C5 (amended). [requestJson] calls [fetch] exactly once, whatever the
    network answers: with the given path, with the given method or [GET]
    when none is given, with the one header [Content-Type:
    application/json], and with the JSON text of the body when the body is
    truthy; when the body is missing or falsy ([null], [false], [0], the
    empty string) the call has no body. *)
Theorem requestJson_request
  (net : Network) (path : jstring) (opts : option Options) :
  exists req,
    fst (run net (requestJson path opts)) = [req] /\
    req_path req = path /\
    req_method req =
      match opts with
      | Some {| opt_method := Some m |} => m
      | _ => lit "GET"
      end /\
    req_headers req = [(lit "Content-Type", lit "application/json")] /\
    let body := match opts with Some o => opt_body o | None => Undefined end in
    (truthy body = true ->
       exists t, stringify body = Some t /\ req_body req = Str t) /\
    (truthy body = false -> req_body req = Undefined).
Proof.
  exists (request_of path opts).
  rewrite run_requestJson. cbn [fst].
  split; [reflexivity|]. split; [reflexivity|].
  split; [destruct opts as [[[m|] b]|]; reflexivity|].
  split; [reflexivity|].
  assert (Hb : opt_body (default no_options opts)
               = match opts with Some o => opt_body o | None => Undefined end)
    by (destruct opts; reflexivity).
  unfold request_of; cbn [req_body]. rewrite Hb.
  split; intros Ht; rewrite Ht; [|reflexivity].
  destruct (stringify_truthy _ Ht) as [t Hs].
  exists t. split; [exact Hs|]. unfold JSON_stringify. rewrite Hs. reflexivity.
Qed.

End RequestClaims.

(** The claim C5 as stated fails: with the body [false], which is given
    and has the JSON text [false], the [fetch] call has no body; the same
    holds for the bodies [0] and the empty string. *)
Lemma requestJson_request_counterexample :
  (stringify (Bool false) = Some (lit "false")
   /\ fst (run (always (mkResponse 200 []))
            (requestJson (lit "/submit") (api.post (Bool false))))
      = [ {| req_path := lit "/submit";
             req_method := lit "POST";
             req_headers := [(lit "Content-Type", lit "application/json")];
             req_body := Undefined |} ])
  /\ (stringify (Num 0%Z) = Some (lit "0")
      /\ map req_body
           (fst (run (always (mkResponse 200 []))
                   (requestJson (lit "/submit") (api.post (Num 0%Z)))))
         = [Undefined])
  /\ (stringify (Str []) = Some (sq "''")
      /\ map req_body
           (fst (run (always (mkResponse 200 []))
                   (requestJson (lit "/submit") (api.post (Str [])))))
         = [Undefined]).
Proof. repeat split. Qed.

(** ** The [api] object *)

Section ApiClaims.
Context {NO : NumberOps}.

Lemma run_throw {A} (net : Network) (t : thrown) :
  run net (@Throw _ A t) = ([], Throws t).
Proof. reflexivity. Qed.

Lemma pbind_lift {A B} (m : result A) (k : A -> Prog B) :
  pbind (lift m) k = match m with Ok a => k a | Throws t => Throw t end.
Proof. destruct m; reflexivity. Qed.

(** C7 (amended). Every operation of [api] maps to the method and path
    the catalogue lists for it, the parameter of the path being the first
    argument converted to a string (URI-encoded by [getSubmissions] and
    [teacherUpdateSubmission]). When that text exists the operation makes
    exactly one request, whatever the network answers; when the
    conversion raises, the operation ends with the exception and makes no
    request. *)
Theorem api_endpoints (op : Operation) (args : list value) (net : Network) :
  match path_of op (nth 0 args Undefined) with
  | Ok path =>
      exists req,
        fst (run net (call op args)) = [req]
        /\ req_path req = path
        /\ req_method req = ep_method (endpoint op)
  | Throws t => run net (call op args) = ([], Throws t)
  end.
Proof.
  unfold path_of, call.
  destruct op; cbn [endpoint ep_path has_param existsb orb param_text bind];
    unfold api.register, api.login, api.getChallenges, api.getChallenge,
      api.addChallenge, api.updateChallenge, api.deleteChallenge, api.submit,
      api.getSubmissions, api.teacherListSubmissions,
      api.teacherUpdateSubmission, api.addTestCase, api.deleteTestCase,
      api.addSolutionTemplate, api.deleteSolutionTemplate,
      api.exportChallenge, api.copyChallenge, api.importChallenge;
    rewrite ?pbind_lift;
    try match goal with
        | |- context [bind ?m _] => destruct m as [p|t]; cbn [bind]
        end;
    try reflexivity;
    rewrite run_requestJson; cbn [fst];
    eexists; (split; [reflexivity|]); split; try reflexivity;
    cbn [fill flat_map ep_path endpoint request_of req_path];
    rewrite ?app_nil_r, <- ?app_assoc; reflexivity.
Qed.

End ApiClaims.

(** The claim C7 as stated fails: [getSubmissions] called with a user
    name that holds a surrogate without its pair (here the one code unit
    D800) makes no request: [encodeURIComponent] raises [URIError]. *)
Lemma api_endpoints_counterexample :
  run (always (mkResponse 200 (lit "[]")))
    (call GetSubmissions [Str [55296]])
  = ([], Throws (EngineError URIError)).
Proof. reflexivity. Qed.

(** ** The DOM helpers *)

(** Replacing a one-character pattern is a character-wise substitution. *)
Lemma replaceAll_single (s : jstring) (c : N) (rep : jstring) :
  replaceAll s [c] rep = flat_map (fun x => if x =? c then rep else [x]) s.
Proof.
  unfold replaceAll. induction s as [|x s IH]; [reflexivity|].
  cbn [replaceAll_from starts_with flat_map length Nat.sub].
  rewrite andb_true_r, (N.eqb_sym c x), IH.
  destruct (x =? c); reflexivity.
Qed.

Lemma flat_map_flat_map {A B C} (f : A -> list B) (g : B -> list C) (l : list A) :
  flat_map g (flat_map f l) = flat_map (fun x => flat_map g (f x)) l.
Proof.
  induction l as [|x l IH]; [reflexivity|].
  cbn [flat_map]. rewrite flat_map_app, IH. reflexivity.
Qed.

(** The five replacements in a row amount to one pass: a replacement
    never rewrites the output of an earlier one. *)
Lemma escape_chain (s : jstring) :
  replaceAll
    (replaceAll
       (replaceAll
          (replaceAll (replaceAll s (lit "&") (lit "&amp;"))
             (lit "<") (lit "&lt;"))
          (lit ">") (lit "&gt;"))
       [34] (lit "&quot;"))
    (lit "'") (lit "&#039;")
  = flat_map escape_unit s.
Proof.
  change (lit "&") with [38]. change (lit "<") with [60].
  change (lit ">") with [62]. change (lit "'") with [39].
  rewrite !replaceAll_single, !flat_map_flat_map.
  apply flat_map_ext. intros x. unfold escape_unit.
  destruct (N.eqb_spec x 38) as [->|H38]; [reflexivity|].
  destruct (N.eqb_spec x 60) as [->|H60]; [reflexivity|].
  destruct (N.eqb_spec x 62) as [->|H62]; [reflexivity|].
  destruct (N.eqb_spec x 34) as [->|H34]; [reflexivity|].
  destruct (N.eqb_spec x 39) as [->|H39]; [reflexivity|].
  cbn [flat_map app].
  repeat match goal with
         | |- context [?a =? ?b] =>
             destruct (N.eqb_spec a b); [congruence|]; cbn [flat_map app]
         end.
  reflexivity.
Qed.

(** One character becomes itself, when it is none of the five, or an
    entity. *)
Lemma escape_unit_cases (c : N) :
  (escape_unit c = [c]
   /\ c <> 38 /\ c <> 60 /\ c <> 62 /\ c <> 34 /\ c <> 39)
  \/ In (escape_unit c) entities.
Proof.
  unfold escape_unit, entities.
  destruct (N.eqb_spec c 38); [right; simpl; tauto|].
  destruct (N.eqb_spec c 60); [right; simpl; tauto|].
  destruct (N.eqb_spec c 62); [right; simpl; tauto|].
  destruct (N.eqb_spec c 34); [right; simpl; tauto|].
  destruct (N.eqb_spec c 39); [right; simpl; tauto|].
  left. tauto.
Qed.

Lemma starts_with_app (e rest : jstring) : starts_with e (e ++ rest) = true.
Proof.
  induction e as [|x e IH]; [destruct rest; reflexivity|].
  cbn [app starts_with]. rewrite N.eqb_refl, IH. reflexivity.
Qed.

Lemma escaped_no_markup (s : jstring) (c : N) :
  In c (flat_map escape_unit s) -> c <> 60 /\ c <> 62 /\ c <> 34 /\ c <> 39.
Proof.
  rewrite in_flat_map. intros (x & _ & Hc).
  destruct (escape_unit_cases x) as [(E & Hx) | He].
  - rewrite E in Hc. destruct Hc as [<-|[]]. tauto.
  - unfold entities in He. cbn [In] in He.
    destruct He as [E|[E|[E|[E|[E|[]]]]]]; rewrite <- E in Hc; cbv in Hc;
      repeat (destruct Hc as [<-|Hc]; [repeat split; discriminate|]);
      destruct Hc.
Qed.

Lemma escaped_ampersands (s : jstring) (i : nat) :
  flat_map escape_unit s !! i = Some 38 ->
  exists e, In e entities /\ starts_with e (drop i (flat_map escape_unit s)) = true.
Proof.
  revert i. induction s as [|x s IH]; intros i; [destruct i; discriminate|].
  cbn [flat_map].
  destruct (escape_unit_cases x) as [(-> & Hx) | He].
  - destruct i as [|i]; cbn.
    + intros [= ->]. tauto.
    + apply IH.
  - assert (Hin := He). unfold entities in He. cbn [In] in He.
    destruct He as [E|[E|[E|[E|[E|[]]]]]]; rewrite <- E in *; clear E;
      (destruct i as [|i];
       [intros _; eexists; split; [exact Hin | apply starts_with_app]|]);
      match goal with
      | |- context [lit ?t] =>
          let v := eval vm_compute in (lit t) in change (lit t) with v
      end;
      repeat (destruct i as [|i]; [cbn; discriminate|]);
      cbn; apply IH.
Qed.

Section DomClaims.
Context {NO : NumberOps}.

(** C9. For every input string, the output of [escapeHtml] contains no
    [<], [>], double quote or apostrophe, and every [&] in it starts one
    of the five entities. *)
Theorem escapeHtml_safe (s : jstring) :
  exists out,
    escapeHtml (Str s) = Ok out /\
    (forall c, In c out -> c <> 60 /\ c <> 62 /\ c <> 34 /\ c <> 39) /\
    (forall i, out !! i = Some 38 ->
       exists e, In e entities /\ starts_with e (drop i out) = true).
Proof.
  exists (flat_map escape_unit s).
  split; [|split].
  - unfold escapeHtml. cbn [ToString bind]. rewrite escape_chain. reflexivity.
  - apply escaped_no_markup.
  - apply escaped_ampersands.
Qed.

End DomClaims.

(** ** [auth.js] *)

Section AuthClaims.
Context {NO : NumberOps}.

Lemma strict_eq_str_true (v : value) (s : jstring) :
  strict_eq_str v s = true <-> v = Str s.
Proof.
  destruct v; simpl; try (split; [discriminate | congruence]).
  rewrite str_eqb_eq. split; congruence.
Qed.

(** The guard [auth && ...] keeps the property read from raising. *)
Lemma get_prop_truthy (auth : value) (k : jstring) :
  truthy auth = true -> exists r, get_prop auth k = Ok r.
Proof. destruct auth; try discriminate; simpl; eauto. Qed.

(** C10. [isTeacher(auth)] is truthy exactly when [auth] is truthy and
    [auth.role] is ['teacher'] or ['admin']; it never raises. *)
Theorem isTeacher_truthy (auth : value) :
  exists v,
    isTeacher auth = Ok v /\
    (truthy v = true <->
     truthy auth = true /\
     exists r, get_prop auth (lit "role") = Ok r
               /\ (r = Str (lit "teacher") \/ r = Str (lit "admin"))).
Proof.
  unfold isTeacher. destruct (truthy auth) eqn:Ht.
  - destruct (get_prop_truthy auth (lit "role") Ht) as [r Hr].
    rewrite Hr. cbn [bind].
    destruct (strict_eq_str r (lit "teacher")) eqn:E1.
    + exists (Bool true). split; [reflexivity|]. split; [|reflexivity].
      intros _. split; [reflexivity|]. exists r. split; [reflexivity|].
      left. apply strict_eq_str_true, E1.
    + exists (Bool (strict_eq_str r (lit "admin"))). split; [reflexivity|].
      cbn [truthy]. rewrite strict_eq_str_true. split.
      * intros ->. split; [reflexivity|]. eauto.
      * intros [_ (r' & [= <-] & [H|H])]; [|exact H].
        apply strict_eq_str_true in H. congruence.
  - exists auth. split; [reflexivity|]. rewrite Ht.
    split; [discriminate | intros [H _]; discriminate].
Qed.

(** An administrator counts as a teacher. *)
Lemma isTeacher_admin (ps : list (jstring * value)) :
  own_prop (lit "role") ps = Some (Str (lit "admin")) ->
  isTeacher (Obj ps) = Ok (Bool true).
Proof. intros H. unfold isTeacher; simpl. rewrite H. reflexivity. Qed.

(** C8. [getAuth] never raises. It returns [null] when nothing is stored
    under the key, the parsed value when the stored text is valid JSON,
    and [null] when it is not. *)
Theorem getAuth_total (st : Storage) :
  exists v,
    getAuth st = Ok v /\
    match st !! AUTH_KEY with
    | None => v = Null
    | Some raw =>
        match JSON_parse raw with
        | Ok d => v = d
        | Throws _ => v = Null
        end
    end.
Proof.
  unfold getAuth, getItem.
  destruct (st !! AUTH_KEY) as [raw|]; [|exists Null; split; reflexivity].
  destruct raw as [|c raw].
  - exists Null. split; reflexivity.
  - cbn [truthy ToString bind].
    destruct (JSON_parse (c :: raw)) as [d|t]; cbn [try_catch].
    + exists d. split; reflexivity.
    + exists Null. split; reflexivity.
Qed.

End AuthClaims.

Section Pruning.
Context {NO : NumberOps}.

Lemma prune_not_undefined (v : value) : v <> Undefined -> prune v <> Undefined.
Proof. destruct v; cbn [prune]; congruence. Qed.

(** A property whose value is [undefined] leaves no trace in the text. *)
Lemma stringify_prune (v : value) : stringify (prune v) = stringify v.
Proof.
  induction v as [| |b|n|s|l IHl|ps IHps] using value_ind; try reflexivity.
  - cbn [prune]. rewrite !stringify_Arr.
    assert (E : elements_text (map prune l) = elements_text l).
    { unfold elements_text. rewrite map_map.
      induction IHl as [|x l Hx _ IH]; [reflexivity|].
      cbn [map]. rewrite Hx, IH. reflexivity. }
    rewrite E. reflexivity.
  - cbn [prune]. rewrite !stringify_Obj.
    assert (E : members_text
                  (flat_map (fun kv => match snd kv with
                                       | Undefined => []
                                       | _ => [(fst kv, prune (snd kv))]
                                       end) ps)
                = members_text ps).
    { induction IHps as [|[k x] ps Hx _ IH]; [reflexivity|].
      cbn [snd] in Hx. unfold members_text in *.
      cbn [flat_map fst snd]. rewrite flat_map_app, IH.
      destruct x; cbn [flat_map fst snd app];
        rewrite ?Hx, ?app_nil_r; reflexivity. }
    rewrite E. reflexivity.
Qed.

Lemma prune_json_data (v : value) : json_data v -> prune v = v.
Proof.
  induction v as [| |b|n|s|l IHl|ps IHps] using value_ind; try reflexivity;
    intros Hjd.
  - inversion Hjd as [| | | |? Hl|]; subst. cbn [prune]. f_equal. clear Hjd.
    induction l as [|x l IH]; [reflexivity|].
    inversion Hl; subst. inversion IHl; subst. cbn [map]. f_equal; auto.
  - inversion Hjd as [| | | | |? _ Hps]; subst. cbn [prune]. f_equal. clear Hjd.
    induction ps as [|[k x] ps IH]; [reflexivity|].
    inversion Hps as [|? ? Hx Hps']; subst.
    inversion IHps as [|? ? Px Pps]; subst. cbn [fst snd] in *.
    cbn [flat_map fst snd]. rewrite (IH Pps Hps'), (Px Hx).
    destruct x; try reflexivity. inversion Hx.
Qed.

End Pruning.

Section AuthRoundTrip.
Context {NO : NumberOps}.

Lemma getAuth_clearAuth (st : Storage) : getAuth (clearAuth st) = Ok Null.
Proof.
  unfold getAuth, getItem, clearAuth, removeItem.
  rewrite lookup_delete_eq. reflexivity.
Qed.

Lemma setAuth_getAuth (auth : value) (st : Storage) :
  json_data auth ->
  exists st', setAuth auth st = Ok st' /\ getAuth st' = Ok auth.
Proof.
  intros Hjd.
  destruct (json_data_text auth Hjd) as [t Ht].
  exists (<[AUTH_KEY := t]> st). split.
  - unfold setAuth, setItem, JSON_stringify. rewrite Ht. reflexivity.
  - unfold getAuth, getItem. rewrite lookup_insert_eq.
    destruct (value_text_head auth t Hjd Ht) as (c & r & -> & _).
    cbn [truthy ToString bind].
    rewrite (JSON_parse_stringify auth (c :: r) Hjd Ht). reflexivity.
Qed.

(** C4. For an authentication object that is JSON data, [setAuth] stores
    its text, and [getAuth] on the new storage returns the object itself;
    after [clearAuth], [getAuth] returns [null]. *)
Theorem auth_round_trip (auth : value) (st : Storage) :
  json_data auth ->
  (exists st',
     setAuth auth st = Ok st'
     /\ getAuth st' = Ok auth
     /\ getAuth (clearAuth st') = Ok Null)
  /\ getAuth (clearAuth st) = Ok Null.
Proof.
  intros Hjd. split; [|apply getAuth_clearAuth].
  destruct (setAuth_getAuth auth st Hjd) as (st' & Hset & Hget).
  exists st'. split; [exact Hset|]. split; [exact Hget|].
  apply getAuth_clearAuth.
Qed.

(** X19. An authentication object with properties whose value is
    [undefined] comes back from [setAuth] and [getAuth] without them, and
    otherwise the same. *)
Lemma auth_round_trip_pruned (auth : value) (st : Storage) :
  json_data (prune auth) ->
  exists st', setAuth auth st = Ok st' /\ getAuth st' = Ok (prune auth).
Proof.
  intros Hjd.
  destruct (setAuth_getAuth (prune auth) st Hjd) as (st' & Hset & Hget).
  exists st'. split; [|exact Hget].
  unfold setAuth, JSON_stringify in *. rewrite stringify_prune in Hset.
  exact Hset.
Qed.

End AuthRoundTrip.

(** A teacher's authentication object is JSON data. *)
Lemma sample_auth_json_data :
  json_data (Obj [(lit "role", Str (lit "teacher"));
                  (lit "username", Str (lit "amal"));
                  (lit "user_id", Num 7%Z);
                  (lit "classes", Arr [Num 3%Z; Num 12%Z])]).
Proof.
  constructor.
  - split; [|reflexivity].
    apply (bool_decide_unpack _). vm_compute. exact I.
  - repeat constructor.
Qed.

(** C4 at that object and the empty storage. *)
Lemma auth_round_trip_witness :
  (exists st',
     setAuth (Obj [(lit "role", Str (lit "teacher"));
                   (lit "username", Str (lit "amal"));
                   (lit "user_id", Num 7%Z);
                   (lit "classes", Arr [Num 3%Z; Num 12%Z])]) ∅ = Ok st'
     /\ getAuth st'
        = Ok (Obj [(lit "role", Str (lit "teacher"));
                   (lit "username", Str (lit "amal"));
                   (lit "user_id", Num 7%Z);
                   (lit "classes", Arr [Num 3%Z; Num 12%Z])])
     /\ getAuth (clearAuth st') = Ok Null)
  /\ getAuth (clearAuth ∅) = Ok Null.
Proof. exact (auth_round_trip _ ∅ sample_auth_json_data). Defined.

(** ** Sample runs *)

Example sample_error_message :
  snd (run (always (mkResponse 401 (sq "{'error':'bad password'}")))
         (api.login (Obj [(lit "username", Str (lit "amal"))])))
  = Throws (UserError
              (mkError (lit "bad password") (Some 401)
                 (Some (Obj [(lit "error", Str (lit "bad password"))])))).
Proof. reflexivity. Qed.

Example sample_request :
  fst (run (always (mkResponse 200 (sq "{'ok':true}")))
         (api.addTestCase (Num 12%Z) (Obj [(lit "input", Str (lit "1 2"))])))
  = [ {| req_path := lit "/challenges/12/add_test_case";
         req_method := lit "POST";
         req_headers := [(lit "Content-Type", lit "application/json")];
         req_body := Str (sq "{'input':'1 2'}") |} ].
Proof. reflexivity. Qed.

Example sample_encoded_path :
  fst (run (always (mkResponse 200 (lit "[]")))
         (api.getSubmissions (Str (lit "amal k/2"))))
  = [ {| req_path := lit "/submissions/amal%20k%2F2";
         req_method := lit "GET";
         req_headers := [(lit "Content-Type", lit "application/json")];
         req_body := Undefined |} ].
Proof. reflexivity. Qed.

Example sample_parse_order :
  JSON_parse (sq "{'b':1,'2':[true,null],'1':'x','b':{}}")
  = Ok (Obj [(lit "1", Str (lit "x"));
             (lit "2", Arr [Bool true; Null]);
             (lit "b", Obj [])]).
Proof. reflexivity. Qed.

Example sample_escapeHtml :
  escapeHtml (Str (lit "<a href='x'>T&C</a>"))
  = Ok (lit "&lt;a href=&#039;x&#039;&gt;T&amp;C&lt;/a&gt;").
Proof. reflexivity. Qed.

Example sample_isTeacher :
  isTeacher (Obj [(lit "role", Str (lit "admin"))]) = Ok (Bool true)
  /\ isTeacher (Obj [(lit "role", Str (lit "student"))]) = Ok (Bool false)
  /\ isTeacher Null = Ok Null.
Proof. repeat split. Qed.

Example sample_getAuth_garbage :
  getAuth (<[AUTH_KEY := lit "{oops"]> ∅) = Ok Null.
Proof. reflexivity. Qed.

(** * Further properties *)

(** ** The request gateway: outcomes and round trips *)

Section GatewayMore.
Context {NO : NumberOps}.

(** X2. Once [fetch] has answered, [requestJson] returns exactly when the
    status is in 200-299, and then it returns the decoded body; for every
    other status it throws, whatever the body says. *)
Theorem requestJson_returns_iff_ok
  (net : Network) (path : jstring) (opts : option Options) (res : Response) :
  net 0%nat (request_of path opts) = Resolved res ->
  ((exists v, snd (run net (requestJson path opts)) = Ok v)
   <-> 200 <= res_status res <= 299)
  /\ (res_ok res = true ->
      snd (run net (requestJson path opts)) = decode_body (res_text res))
  /\ (res_ok res = false ->
      exists t, snd (run net (requestJson path opts)) = Throws t).
Proof.
  intros Hnet. rewrite run_requestJson, Hnet. cbn [snd]. unfold respond.
  destruct (decode_body_total (res_text res)) as [data Hdata].
  rewrite Hdata. cbn [bind].
  assert (Hok : res_ok res = true <-> 200 <= res_status res <= 299).
  { unfold res_ok. rewrite andb_true_iff, !N.leb_le. tauto. }
  destruct (res_ok res) eqn:E; cbn [negb].
  - split; [|split]; [|reflexivity|discriminate].
    split; [intros _; apply Hok; reflexivity | eauto].
  - assert (Ht : exists t, (let* err := http_error res data in
                             Throws (UserError err)) = Throws t :> result value).
    { destruct (http_error res data); cbn [bind]; eauto. }
    split; [|split]; [|discriminate|intros _; exact Ht].
    destruct Ht as [t Ht]. rewrite Ht. split.
    + intros [v Hv]. discriminate.
    + intros H. apply Hok in H. discriminate.
Qed.

(** X3. A 2xx response whose body is the JSON text of a value makes
    [requestJson] return that value: what the server serialised is what
    the caller gets. *)
Theorem requestJson_returns_sent_value
  (net : Network) (path : jstring) (opts : option Options) (res : Response)
  (v : value) :
  net 0%nat (request_of path opts) = Resolved res ->
  res_ok res = true ->
  json_data v ->
  stringify v = Some (res_text res) ->
  snd (run net (requestJson path opts)) = Ok v.
Proof.
  intros Hnet Hok Hjd Ht.
  rewrite run_requestJson, Hnet. cbn [snd]. unfold respond, decode_body.
  destruct (value_text_head v _ Hjd Ht) as (c & r & E & _).
  rewrite (JSON_parse_stringify v _ Hjd Ht), E, Hok. reflexivity.
Qed.

(** X4. The body [requestJson] sends reads back as the payload: for a
    truthy payload that is JSON data, the request carries a text that
    [JSON.parse] turns into the payload again. *)
Theorem requestJson_body_reads_back
  (net : Network) (path : jstring) (o : Options) :
  truthy (opt_body o) = true ->
  json_data (opt_body o) ->
  exists req t,
    fst (run net (requestJson path (Some o))) = [req]
    /\ req_body req = Str t
    /\ JSON_parse t = Ok (opt_body o).
Proof.
  intros Ht Hjd. destruct (json_data_text _ Hjd) as [t Hs].
  exists (request_of path (Some o)), t.
  rewrite run_requestJson. split; [reflexivity|].
  split; [|exact (JSON_parse_stringify _ _ Hjd Hs)].
  unfold request_of. cbn [default from_option id req_body].
  rewrite Ht. unfold JSON_stringify. rewrite Hs. reflexivity.
Qed.

(** X5. A response that is not 2xx and whose body is empty or is not
    JSON (an error page of a proxy, say) ends [requestJson] with an
    [Error] whose message is [HTTP <status>], whose [status] is the
    status code and whose [data] is the empty object for an empty body
    and [{ raw: text }] otherwise. *)
Theorem requestJson_error_without_json
  (net : Network) (path : jstring) (opts : option Options) (res : Response) :
  net 0%nat (request_of path opts) = Resolved res ->
  res_ok res = false ->
  res_text res = [] \/ (exists t, JSON_parse (res_text res) = Throws t) ->
  snd (run net (requestJson path opts))
  = Throws (UserError
              (mkError (lit "HTTP " ++ N_to_string (res_status res))
                 (Some (res_status res))
                 (Some (match res_text res with
                        | [] => Obj []
                        | _ => Obj [(lit "raw", Str (res_text res))]
                        end)))).
Proof.
  intros Hnet Hok Hbody.
  rewrite run_requestJson, Hnet. cbn [snd]. unfold respond.
  assert (Hd : decode_body (res_text res)
               = Ok (match res_text res with
                     | [] => Obj []
                     | _ => Obj [(lit "raw", Str (res_text res))]
                     end)).
  { unfold decode_body. destruct (res_text res) as [|c r] eqn:E; [reflexivity|].
    destruct Hbody as [?|[t Ht]]; [discriminate|].
    cbn [truthy]. rewrite Ht. reflexivity. }
  rewrite Hd, Hok. cbn [bind negb]. rewrite http_error_eq.
  destruct (res_text res); reflexivity.
Qed.

End GatewayMore.

(** X2 at a response 404 with an empty body. *)
Lemma requestJson_returns_iff_ok_witness :
  let net := always (mkResponse 404 []) in
  ((exists v, snd (run net (requestJson (lit "/challenges/9") None)) = Ok v)
   <-> 200 <= 404 <= 299)
  /\ (res_ok (mkResponse 404 []) = true ->
      snd (run net (requestJson (lit "/challenges/9") None))
      = decode_body [])
  /\ (res_ok (mkResponse 404 []) = false ->
      exists t, snd (run net (requestJson (lit "/challenges/9") None))
                = Throws t).
Proof.
  exact (requestJson_returns_iff_ok (always (mkResponse 404 []))
           (lit "/challenges/9") None (mkResponse 404 []) eq_refl).
Defined.

(** X3 at a response 200 that carries the teacher's object. *)
Lemma requestJson_returns_sent_value_witness :
  snd (run (always (mkResponse 200
              (sq "{'role':'teacher','username':'amal','user_id':7,'classes':[3,12]}")))
         (requestJson (lit "/login") None))
  = Ok (Obj [(lit "role", Str (lit "teacher"));
             (lit "username", Str (lit "amal"));
             (lit "user_id", Num 7%Z);
             (lit "classes", Arr [Num 3%Z; Num 12%Z])]).
Proof.
  exact (requestJson_returns_sent_value (always (mkResponse 200 _))
           (lit "/login") None (mkResponse 200 _) _
           eq_refl eq_refl sample_auth_json_data eq_refl).
Defined.

(** X4 at the same object, sent as the payload of a [POST]. *)
Lemma requestJson_body_reads_back_witness :
  exists req t,
    fst (run (always (mkResponse 200 []))
           (requestJson (lit "/register")
              (api.post (Obj [(lit "role", Str (lit "teacher"));
                              (lit "username", Str (lit "amal"));
                              (lit "user_id", Num 7%Z);
                              (lit "classes", Arr [Num 3%Z; Num 12%Z])]))))
    = [req]
    /\ req_body req = Str t
    /\ JSON_parse t
       = Ok (Obj [(lit "role", Str (lit "teacher"));
                  (lit "username", Str (lit "amal"));
                  (lit "user_id", Num 7%Z);
                  (lit "classes", Arr [Num 3%Z; Num 12%Z])]).
Proof.
  exact (requestJson_body_reads_back (always (mkResponse 200 []))
           (lit "/register")
           {| opt_method := Some (lit "POST");
              opt_body := Obj [(lit "role", Str (lit "teacher"));
                               (lit "username", Str (lit "amal"));
                               (lit "user_id", Num 7%Z);
                               (lit "classes", Arr [Num 3%Z; Num 12%Z])] |}
           eq_refl sample_auth_json_data).
Defined.

(** X5 at a response 502 with an HTML body. *)
Lemma requestJson_error_without_json_witness :
  snd (run (always (mkResponse 502 (lit "<html>Bad Gateway</html>")))
         (requestJson (lit "/submit") (api.post (Obj []))))
  = Throws (UserError
              (mkError (lit "HTTP 502") (Some 502)
                 (Some (Obj [(lit "raw", Str (lit "<html>Bad Gateway</html>"))])))).
Proof.
  exact (requestJson_error_without_json
           (always (mkResponse 502 (lit "<html>Bad Gateway</html>")))
           (lit "/submit") (api.post (Obj []))
           (mkResponse 502 (lit "<html>Bad Gateway</html>"))
           eq_refl eq_refl
           (or_intror (ex_intro _ (EngineError SyntaxError) eq_refl))).
Defined.

(** ** The [api] object: bodies and path segments *)

Section ApiMore.
Context {NO : NumberOps}.

(** X6. What an [api] call sends as its body. The three [GET]
    operations with a parameter and [getChallenges] never send one; every
    other operation sends the JSON text of its payload (the argument
    after the identifier when the path has one, the first argument
    otherwise), and no body when the payload is missing or falsy. *)
Theorem api_bodies
  (op : Operation) (args : list value) (net : Network) (path : jstring) :
  path_of op (nth 0 args Undefined) = Ok path ->
  exists req,
    fst (run net (call op args)) = [req]
    /\ (req_method req = lit "GET" -> req_body req = Undefined)
    /\ (req_method req <> lit "GET" ->
        req_body req = if truthy (payload_of op args)
                       then JSON_stringify (payload_of op args)
                       else Undefined).
Proof.
  unfold path_of, call, payload_of.
  destruct op; cbn [endpoint ep_path has_param existsb orb param_text bind];
    unfold api.register, api.login, api.getChallenges, api.getChallenge,
      api.addChallenge, api.updateChallenge, api.deleteChallenge, api.submit,
      api.getSubmissions, api.teacherListSubmissions,
      api.teacherUpdateSubmission, api.addTestCase, api.deleteTestCase,
      api.addSolutionTemplate, api.deleteSolutionTemplate,
      api.exportChallenge, api.copyChallenge, api.importChallenge;
    rewrite ?pbind_lift;
    try match goal with
        | |- context [bind ?m _] => destruct m as [p|t]; cbn [bind]
        end;
    intros H; try discriminate H;
    rewrite run_requestJson; cbn [fst];
    eexists; (split; [reflexivity|]);
    (split; [try reflexivity; intros [=] | intros Hm; try reflexivity;
                                           exfalso; apply Hm; reflexivity]).
Qed.

End ApiMore.

(** The characters [encodeURIComponent] writes. *)
Lemma hex_upper_unreserved (d : N) :
  d < 16 -> uri_unreserved (hex_upper d) = true.
Proof.
  intros Hd. unfold hex_upper, uri_unreserved.
  destruct (N.ltb_spec d 10).
  - assert (E : is_digit (48 + d) = true).
    { unfold is_digit. apply andb_true_iff. split; apply N.leb_le; lia. }
    rewrite E, orb_true_r. reflexivity.
  - assert (E : (65 <=? 55 + d) && (55 + d <=? 90) = true).
    { apply andb_true_iff. split; apply N.leb_le; lia. }
    rewrite E. reflexivity.
Qed.

Lemma percent_chars (b : N) :
  b < 256 -> Forall (fun c => uri_unreserved c = true \/ c = 37) (percent b).
Proof.
  intros Hb. unfold percent.
  assert (H1 : b / 16 < 16) by (apply N.Div0.div_lt_upper_bound; lia).
  assert (H2 : b mod 16 < 16) by (apply N.mod_lt; discriminate).
  apply List.Forall_cons; [right; reflexivity|].
  apply List.Forall_cons; [left; apply hex_upper_unreserved, H1|].
  apply List.Forall_cons; [left; apply hex_upper_unreserved, H2|].
  apply List.Forall_nil.
Qed.

Lemma utf8_bytes (cp : N) : cp < 1114112 -> Forall (fun b => b < 256) (utf8 cp).
Proof.
  intros Hcp. unfold utf8.
  assert (M : forall a, a mod 64 < 64) by (intros; apply N.mod_lt; discriminate).
  pose proof (M cp) as M0. pose proof (M (cp / 64)) as M1.
  pose proof (M (cp / 4096)) as M2.
  remember (cp mod 64) as m0. remember (cp / 64 mod 64) as m1.
  remember (cp / 4096 mod 64) as m2.
  destruct (N.ltb_spec cp 128); [repeat constructor; lia|].
  destruct (N.ltb_spec cp 2048).
  { assert (cp / 64 < 32) by (apply N.Div0.div_lt_upper_bound; lia).
    remember (cp / 64) as q. repeat constructor; lia. }
  destruct (N.ltb_spec cp 65536).
  { assert (cp / 4096 < 16) by (apply N.Div0.div_lt_upper_bound; lia).
    remember (cp / 4096) as q. repeat constructor; lia. }
  assert (cp / 262144 < 5) by (apply N.Div0.div_lt_upper_bound; lia).
  remember (cp / 262144) as q. repeat constructor; lia.
Qed.

Lemma percent_utf8_chars (cp : N) :
  cp < 1114112 ->
  Forall (fun c => uri_unreserved c = true \/ c = 37) (percent_utf8 cp).
Proof.
  intros Hcp. unfold percent_utf8.
  induction (utf8_bytes cp Hcp) as [|b l Hb _ IH]; [constructor|].
  cbn [flat_map]. apply Forall_app. split; [apply percent_chars, Hb | exact IH].
Qed.

Section UriMore.
Context {NO : NumberOps}.

Lemma uri_encode_chars (n : nat) (s u : jstring) :
  (length s <= n)%nat ->
  Forall (fun c => c < 65536) s ->
  uri_encode s = Ok u ->
  Forall (fun c => uri_unreserved c = true \/ c = 37) u.
Proof.
  revert s u. induction n as [|n IH]; intros s u Hlen Hs.
  { destruct s; [intros [= <-]; constructor | cbn in Hlen; lia]. }
  destruct s as [|c r]; [intros [= <-]; constructor|].
  cbn [length] in Hlen. inversion Hs as [|? ? Hc Hr]; subst.
  cbn [uri_encode].
  destruct (uri_unreserved c) eqn:Eu.
  { destruct (uri_encode r) as [t|] eqn:Et; cbn [bind]; [|discriminate].
    intros [= <-]. constructor; [left; exact Eu|].
    apply (IH r t); [lia | exact Hr | exact Et]. }
  destruct (is_low_surrogate c); [discriminate|].
  destruct (is_high_surrogate c) eqn:Eh.
  - destruct r as [|d r']; [discriminate|].
    destruct (is_low_surrogate d) eqn:El; [|discriminate].
    destruct (uri_encode r') as [t|] eqn:Et; cbn [bind]; [|discriminate].
    intros [= <-]. inversion Hr as [|? ? Hd Hr']; subst.
    apply Forall_app. split.
    + apply percent_utf8_chars.
      unfold is_high_surrogate in Eh. unfold is_low_surrogate in El.
      apply andb_true_iff in Eh, El. rewrite !N.leb_le in Eh, El. lia.
    + apply (IH r' t); [cbn [length] in Hlen; lia | exact Hr' | exact Et].
  - destruct (uri_encode r) as [t|] eqn:Et; cbn [bind]; [|discriminate].
    intros [= <-]. apply Forall_app. split.
    + apply percent_utf8_chars. lia.
    + apply (IH r t); [lia | exact Hr | exact Et].
Qed.

(** X7. [getSubmissions] and [teacherUpdateSubmission] put their first
    argument in the path URI-encoded: whatever the text (of 16-bit code
    units), the segment written holds only letters, digits, the marks
    [- _ . ! ~ * ' ( )] and [%], so no [/], [?] or [#] of the argument
    reaches the path. *)
Theorem encoded_path_segment
  (op : Operation) (s u : jstring) (rest : list value) (net : Network) :
  op = GetSubmissions \/ op = TeacherUpdateSubmission ->
  Forall (fun c => c < 65536) s ->
  encodeURIComponent (Str s) = Ok u ->
  exists req,
    fst (run net (call op (Str s :: rest))) = [req]
    /\ req_path req = fill (ep_path (endpoint op)) u
    /\ forall c, In c u ->
         (uri_unreserved c = true \/ c = 37) /\ c <> 47 /\ c <> 63 /\ c <> 35.
Proof.
  intros Hop Hs Hu.
  assert (Hsafe : forall c, In c u ->
            (uri_unreserved c = true \/ c = 37) /\ c <> 47 /\ c <> 63 /\ c <> 35).
  { cbn [encodeURIComponent ToString bind] in Hu.
    pose proof (uri_encode_chars _ s u (le_n _) Hs Hu) as HF.
    rewrite List.Forall_forall in HF. intros c Hc.
    pose proof (HF c Hc) as H. split; [exact H|].
    repeat split; intros ->; destruct H; discriminate. }
  destruct Hop as [-> | ->]; unfold call; cbn [nth];
    unfold api.getSubmissions, api.teacherUpdateSubmission;
    rewrite Hu; cbn [lift pbind]; rewrite run_requestJson; cbn [fst];
    eexists; (split; [reflexivity|]); (split; [|exact Hsafe]);
    cbn [fill flat_map ep_path endpoint request_of req_path];
    rewrite ?app_nil_r; reflexivity.
Qed.

(** X8. The other operations with a parameter insert it as it is. An
    identifier that ends in [/export] therefore turns [getChallenge] into
    [exportChallenge]: the two calls are the same request, with the same
    outcome, on every network. *)
Theorem getChallenge_verbatim (i : jstring) (net : Network) :
  run net (api.getChallenge (Str (i ++ lit "/export")))
  = run net (api.exportChallenge (Str i)).
Proof.
  unfold api.getChallenge, api.exportChallenge.
  cbn [ToString lift pbind]. reflexivity.
Qed.

End UriMore.

(** X6 at [updateChallenge(12, { title: 'Sum' })]. *)
Lemma api_bodies_witness :
  exists req,
    fst (run (always (mkResponse 200 []))
           (call UpdateChallenge
              [Num 12%Z; Obj [(lit "title", Str (lit "Sum"))]]))
    = [req]
    /\ (req_method req = lit "GET" -> req_body req = Undefined)
    /\ (req_method req <> lit "GET" ->
        req_body req = Str (sq "{'title':'Sum'}")).
Proof.
  exact (api_bodies UpdateChallenge
           [Num 12%Z; Obj [(lit "title", Str (lit "Sum"))]]
           (always (mkResponse 200 [])) (lit "/challenges/12") eq_refl).
Defined.

(** X7 at [getSubmissions('amal k/2')]. *)
Lemma encoded_path_segment_witness :
  exists req,
    fst (run (always (mkResponse 200 (lit "[]")))
           (call GetSubmissions [Str (lit "amal k/2")]))
    = [req]
    /\ req_path req = lit "/submissions/amal%20k%2F2"
    /\ forall c, In c (lit "amal%20k%2F2") ->
         (uri_unreserved c = true \/ c = 37) /\ c <> 47 /\ c <> 63 /\ c <> 35.
Proof.
  refine (encoded_path_segment GetSubmissions (lit "amal k/2")
            (lit "amal%20k%2F2") [] (always (mkResponse 200 (lit "[]")))
            (or_introl eq_refl) _ eq_refl).
  repeat constructor.
Defined.

(** ** The DOM helpers: [escapeHtml] as a function of its input *)

Lemma escape_unit_eq (c : N) :
  escape_unit c =
    if c =? 38 then [38; 97; 109; 112; 59]
    else if c =? 60 then [38; 108; 116; 59]
    else if c =? 62 then [38; 103; 116; 59]
    else if c =? 34 then [38; 113; 117; 111; 116; 59]
    else if c =? 39 then [38; 35; 48; 51; 57; 59]
    else [c].
Proof. reflexivity. Qed.

Ltac escape_unit_cases_in H :=
  rewrite ?escape_unit_eq in H;
  repeat match type of H with
         | context [?a =? ?b] => destruct (N.eqb_spec a b); try subst a
         end;
  cbn [app] in H.

(** The entities are told apart from each other and from plain text, so
    the escaped text determines the input. *)
Lemma escape_units_inj (a b : jstring) :
  flat_map escape_unit a = flat_map escape_unit b -> a = b.
Proof.
  revert b. induction a as [|x a IH]; intros [|y b]; cbn [flat_map]; intros H.
  - reflexivity.
  - exfalso. escape_unit_cases_in H; discriminate.
  - exfalso. escape_unit_cases_in H; discriminate.
  - escape_unit_cases_in H; try discriminate;
      try (injection H as H; f_equal; apply IH, H);
      try (injection H as -> H; f_equal; apply IH, H);
      injection H as E _; congruence.
Qed.

Lemma escape_units_length (s : jstring) :
  (length s <= length (flat_map escape_unit s))%nat.
Proof.
  induction s as [|x s IH]; [reflexivity|].
  cbn [flat_map]. rewrite length_app. cbn [length].
  assert (1 <= length (escape_unit x))%nat; [|lia].
  rewrite escape_unit_eq.
  repeat match goal with
         | |- context [?a =? ?b] => destruct (a =? b)
         end; cbn [length]; lia.
Qed.

(** Text without any of the five characters is what [escapeHtml] leaves
    as it is, and nothing else. *)
Lemma escape_units_fixed (s : jstring) :
  flat_map escape_unit s = s
  <-> forallb (fun c => negb (is_markup c)) s = true.
Proof.
  induction s as [|x s IH]; [split; reflexivity|].
  cbn [flat_map forallb]. rewrite andb_true_iff, <- IH.
  pose proof (escape_units_length s) as Hlen.
  unfold is_markup. rewrite escape_unit_eq.
  destruct (N.eqb_spec x 38) as [->|H38].
  { split; [|intros [[=] _]]. intros [= E]. rewrite <- E in Hlen at 1.
    cbn [length] in Hlen. lia. }
  destruct (N.eqb_spec x 60) as [->|H60]; [split; [intros [=] | intros [[=] _]]|].
  destruct (N.eqb_spec x 62) as [->|H62]; [split; [intros [=] | intros [[=] _]]|].
  destruct (N.eqb_spec x 34) as [->|H34]; [split; [intros [=] | intros [[=] _]]|].
  destruct (N.eqb_spec x 39) as [->|H39]; [split; [intros [=] | intros [[=] _]]|].
  cbn [app orb negb]. split.
  - intros [= E]. auto.
  - intros [_ E]. rewrite E. reflexivity.
Qed.

Section DomMore.
Context {NO : NumberOps}.

(** X9. The five replacements of [escapeHtml] amount to one pass over
    the text of the argument, each character written as itself or as its
    entity: no replacement touches what another one wrote. So the escaped
    text of a concatenation is the concatenation of the escaped texts, and
    a missing value is written as the word [undefined] or [null]. *)
Theorem escapeHtml_one_pass (v : value) (a b : jstring) :
  escapeHtml v = (let* s := ToString v in Ok (flat_map escape_unit s))
  /\ escapeHtml (Str (a ++ b))
     = (let* x := escapeHtml (Str a) in
        let* y := escapeHtml (Str b) in Ok (x ++ y))
  /\ escapeHtml Undefined = Ok (lit "undefined")
  /\ escapeHtml Null = Ok (lit "null").
Proof.
  assert (H : forall v, escapeHtml v
                        = let* s := ToString v in Ok (flat_map escape_unit s)).
  { intros w. unfold escapeHtml. destruct (ToString w) as [s|t]; cbn [bind];
      [rewrite escape_chain|]; reflexivity. }
  split; [apply H|]. split; [|split; reflexivity].
  rewrite !H. cbn [ToString bind]. rewrite flat_map_app. reflexivity.
Qed.

(** X10. [escapeHtml] loses nothing: two strings with the same escaped
    text are the same string. *)
Theorem escapeHtml_injective (a b : jstring) :
  escapeHtml (Str a) = escapeHtml (Str b) -> a = b.
Proof.
  unfold escapeHtml. cbn [ToString bind]. rewrite !escape_chain.
  intros [= H]. apply escape_units_inj, H.
Qed.

(** X11. [escapeHtml] returns its input unchanged exactly when the input
    has none of the five characters, and escaping twice gives the same as
    escaping once in that case only: text that is already escaped and
    holds an entity is escaped again. *)
Theorem escapeHtml_fixed_points (s : jstring) :
  (escapeHtml (Str s) = Ok s
   <-> forallb (fun c => negb (is_markup c)) s = true)
  /\ ((let* t := escapeHtml (Str s) in escapeHtml (Str t)) = escapeHtml (Str s)
      <-> forallb (fun c => negb (is_markup c)) s = true).
Proof.
  unfold escapeHtml. cbn [ToString bind]. rewrite !escape_chain.
  rewrite <- escape_units_fixed. split.
  - split; [intros [= H]; exact H | intros ->; reflexivity].
  - split.
    + intros [= H]. apply escape_units_inj, H.
    + intros H. rewrite !H. reflexivity.
Qed.

(** X12. [badgeForResult] writes one of three constant badges, which
    differ from each other: the success badge for the string [success]
    and nothing else, the partial badge for the string [partial] and
    nothing else, and the failure badge for every other value, strings in
    another case and values that are no strings included. *)
Theorem badgeForResult_cases (r : value) :
  (badgeForResult r = tag_span label_success <-> r = Str (lit "success"))
  /\ (badgeForResult r = tag_span label_partial <-> r = Str (lit "partial"))
  /\ (badgeForResult r = tag_span label_failure
      <-> r <> Str (lit "success") /\ r <> Str (lit "partial")).
Proof.
  unfold badgeForResult.
  destruct (strict_eq_str r (lit "success")) eqn:E1.
  { apply strict_eq_str_true in E1. subst r.
    repeat split; try reflexivity; try discriminate; intros [H _]; congruence. }
  destruct (strict_eq_str r (lit "partial")) eqn:E2.
  { apply strict_eq_str_true in E2. subst r.
    repeat split; try reflexivity; try discriminate; intros [_ H]; congruence. }
  assert (N1 : r <> Str (lit "success")).
  { intros H. apply strict_eq_str_true in H. congruence. }
  assert (N2 : r <> Str (lit "partial")).
  { intros H. apply strict_eq_str_true in H. congruence. }
  repeat split; try discriminate; try assumption; intros H; congruence.
Qed.

End DomMore.

(** X10 at a string with markup. *)
Lemma escapeHtml_injective_witness :
  escapeHtml (Str (lit "<b>T&C</b>")) = Ok (lit "&lt;b&gt;T&amp;C&lt;/b&gt;")
  /\ lit "<b>T&C</b>" = lit "<b>T&C</b>".
Proof.
  split; [reflexivity|].
  exact (escapeHtml_injective (lit "<b>T&C</b>") (lit "<b>T&C</b>") eq_refl).
Defined.

(** ** [show] and [hide] *)

Lemma in_set_elem (t : jstring) (set : list jstring) :
  in_set t set = true <-> t ∈ set.
Proof.
  unfold in_set. rewrite existsb_exists, list_elem_of_In. split.
  - intros (x & Hin & E). apply str_eqb_eq in E. subst. exact Hin.
  - intros Hin. exists t. split; [exact Hin | apply str_eqb_refl].
Qed.

Lemma split_ws_token (cur t rest : jstring) :
  forallb (fun c => negb (is_ascii_ws c)) t = true ->
  split_ws cur (t ++ rest) = split_ws (cur ++ t) rest.
Proof.
  revert cur. induction t as [|c t IH]; intros cur H.
  - rewrite app_nil_r. reflexivity.
  - cbn [forallb] in H. apply andb_true_iff in H as [Hc Ht].
    cbn [app split_ws]. apply negb_true_iff in Hc. rewrite Hc.
    rewrite (IH _ Ht), <- app_assoc. reflexivity.
Qed.

(** Splitting the serialised tokens gives the tokens back. *)
Lemma split_serialize (set : list jstring) :
  Forall token_ok set -> split_ws [] (serialize_tokens set) = set.
Proof.
  unfold serialize_tokens.
  induction 1 as [|t set [Hne Hws] _ IH]; [reflexivity|].
  destruct set as [|t' set].
  - cbn [concat_sep]. rewrite <- (app_nil_r t) at 1.
    rewrite (split_ws_token _ _ _ Hws). cbn [app split_ws].
    destruct t; [congruence | reflexivity].
  - rewrite concat_sep_cons by discriminate.
    rewrite (split_ws_token _ _ _ Hws). cbn [app split_ws is_ascii_ws].
    change ((32 =? 9) || (32 =? 10) || (32 =? 12) || (32 =? 13) || (32 =? 32))
      with true. cbn iota.
    rewrite IH. destruct t; [congruence | reflexivity].
Qed.

Lemma fold_set_append_fresh (todo done : list jstring) :
  NoDup (done ++ todo) -> fold_left set_append todo done = done ++ todo.
Proof.
  revert done. induction todo as [|t todo IH]; intros done H.
  - rewrite app_nil_r. reflexivity.
  - cbn [fold_left]. unfold set_append at 2.
    destruct (in_set t done) eqn:E.
    + apply in_set_elem in E. apply NoDup_app in H as (_ & H & _).
      exfalso. apply (H t E). left.
    + rewrite IH; rewrite <- app_assoc; [reflexivity | exact H].
Qed.

(** Reading the class attribute that the update steps wrote gives the
    token set they wrote. *)
Lemma parse_serialize (set : list jstring) :
  Forall token_ok set -> NoDup set ->
  parse_tokens (serialize_tokens set) = set.
Proof.
  intros Hok Hnd. unfold parse_tokens. rewrite (split_serialize _ Hok).
  apply (fold_set_append_fresh set []). exact Hnd.
Qed.

Lemma split_ws_ok (s cur : jstring) :
  forallb (fun c => negb (is_ascii_ws c)) cur = true ->
  Forall token_ok (split_ws cur s).
Proof.
  revert cur. induction s as [|c s IH]; intros cur Hcur.
  - cbn [split_ws]. destruct cur as [|x cur]; [constructor|].
    repeat constructor; [discriminate | exact Hcur].
  - cbn [split_ws]. destruct (is_ascii_ws c) eqn:Ec.
    + destruct cur as [|x cur]; [apply IH; reflexivity|].
      constructor; [split; [discriminate | exact Hcur] | apply IH; reflexivity].
    + apply IH. rewrite forallb_app, Hcur. cbn [forallb]. rewrite Ec. reflexivity.
Qed.

Lemma set_append_good (set : list jstring) (t : jstring) :
  token_ok t -> Forall token_ok set -> NoDup set ->
  Forall token_ok (set_append set t) /\ NoDup (set_append set t).
Proof.
  intros Ht Hok Hnd. unfold set_append.
  destruct (in_set t set) eqn:E; [auto|]. split.
  - apply Forall_app. auto.
  - apply NoDup_app. split; [exact Hnd|]. split; [|apply NoDup_singleton].
    intros x Hx Hx'. apply list_elem_of_singleton in Hx'. subst x.
    apply in_set_elem in Hx. congruence.
Qed.

(** The token set of an element holds tokens, each once. *)
Lemma parse_tokens_good (s : jstring) :
  Forall token_ok (parse_tokens s) /\ NoDup (parse_tokens s).
Proof.
  unfold parse_tokens.
  assert (H : forall todo done,
             Forall token_ok todo -> Forall token_ok done -> NoDup done ->
             Forall token_ok (fold_left set_append todo done)
             /\ NoDup (fold_left set_append todo done)).
  { induction todo as [|t todo IH]; intros done Htodo Hdone Hnd; [auto|].
    inversion Htodo; subst. cbn [fold_left].
    destruct (set_append_good done t) as [? ?]; auto. }
  apply H; [apply split_ws_ok; reflexivity | constructor | constructor].
Qed.

Lemma token_ok_hidden : token_ok (lit "hidden").
Proof. split; [discriminate | reflexivity]. Qed.

Lemma in_set_append (set : list jstring) (t : jstring) :
  in_set t (set_append set t) = true.
Proof.
  unfold set_append. destruct (in_set t set) eqn:E; [exact E|].
  apply in_set_elem, elem_of_app. right. apply list_elem_of_singleton. reflexivity.
Qed.

Lemma filter_good (t : jstring) (set : list jstring) :
  Forall token_ok set -> NoDup set ->
  Forall token_ok (filter (fun x => negb (str_eqb x t)) set)
  /\ NoDup (filter (fun x => negb (str_eqb x t)) set).
Proof.
  intros Hok Hnd. split; [|apply NoDup_filter, Hnd].
  rewrite Forall_forall in *. intros x Hx.
  apply list_elem_of_filter in Hx as [_ Hx]. auto.
Qed.

Lemma filter_absent (t : jstring) (set : list jstring) :
  t ∉ set -> filter (fun x => negb (str_eqb x t)) set = set.
Proof.
  induction set as [|x set IH]; intros H; [reflexivity|].
  apply not_elem_of_cons in H as [Hx Hs].
  rewrite filter_cons_True, IH; [reflexivity | exact Hs |].
  apply negb_prop_intro. intros E. apply Is_true_eq_true, str_eqb_eq in E.
  congruence.
Qed.

Lemma filter_twice (t : jstring) (set : list jstring) :
  filter (fun x => negb (str_eqb x t)) (filter (fun x => negb (str_eqb x t)) set)
  = filter (fun x => negb (str_eqb x t)) set.
Proof. apply list_filter_filter_l. auto. Qed.

Lemma filter_set_append (t : jstring) (set : list jstring) :
  filter (fun x => negb (str_eqb x t)) (set_append set t)
  = filter (fun x => negb (str_eqb x t)) set.
Proof.
  unfold set_append. destruct (in_set t set); [reflexivity|].
  rewrite filter_app, filter_cons_False, filter_nil, app_nil_r; [reflexivity|].
  rewrite str_eqb_refl. auto.
Qed.

(** The token set after [classList.add] and [classList.remove], read
    from the attribute they wrote. *)
Lemma class_tokens_add (t : jstring) (e : Element) :
  token_ok t ->
  class_tokens (classList_add t e) = set_append (class_tokens e) t.
Proof.
  intros Ht. unfold classList_add, class_tokens at 1.
  cbn [set_class el_class default from_option id].
  destruct (parse_tokens_good (default [] (el_class e))) as [Hok Hnd].
  destruct (set_append_good _ t Ht Hok Hnd) as [Hok' Hnd'].
  apply parse_serialize; assumption.
Qed.

Lemma class_tokens_remove (t : jstring) (e : Element) :
  class_tokens (classList_remove t e)
  = filter (fun x => negb (str_eqb x t)) (class_tokens e).
Proof.
  destruct (parse_tokens_good (default [] (el_class e))) as [Hok Hnd].
  destruct (filter_good t _ Hok Hnd) as [Hok' Hnd'].
  unfold classList_remove.
  destruct (el_class e) as [c|] eqn:Ec.
  - unfold class_tokens at 1. cbn [set_class el_class default from_option id].
    apply parse_serialize; unfold class_tokens; rewrite Ec; assumption.
  - unfold class_tokens. rewrite Ec.
    change (parse_tokens (default [] None)) with (@nil jstring).
    rewrite filter_nil, Ec. reflexivity.
Qed.

(** X13. [hide] puts the class [hidden] on the element and [show] takes
    it off; the other classes stay, in their order, and so do the tag,
    the other attributes and the content. [hide] adds the class at the end, once, and not
    at all when the element has it; [null] is left alone. *)
Theorem hide_show_classes (e : Element) :
  exists h s,
    hide (Some e) = Some h /\ show (Some e) = Some s
    /\ class_tokens h
       = (if in_set (lit "hidden") (class_tokens e) then class_tokens e
          else class_tokens e ++ [lit "hidden"])
    /\ class_tokens s = filter (fun t => t <> lit "hidden") (class_tokens e)
    /\ el_tag h = el_tag e /\ el_attrs h = el_attrs e /\ el_text h = el_text e
    /\ el_tag s = el_tag e /\ el_attrs s = el_attrs e /\ el_text s = el_text e
    /\ hide None = None /\ show None = None.
Proof.
  exists (classList_add (lit "hidden") e), (classList_remove (lit "hidden") e).
  split; [reflexivity|]. split; [reflexivity|].
  split; [apply class_tokens_add, token_ok_hidden|].
  split.
  { rewrite class_tokens_remove. apply list_filter_iff. intros x.
    rewrite negb_True, Is_true_true, str_eqb_eq. tauto. }
  split; [reflexivity|]. split; [reflexivity|]. split; [reflexivity|].
  assert (H : el_tag (classList_remove (lit "hidden") e) = el_tag e
              /\ el_attrs (classList_remove (lit "hidden") e) = el_attrs e
              /\ el_text (classList_remove (lit "hidden") e) = el_text e).
  { unfold classList_remove.
    destruct (el_class e); [repeat split; reflexivity|].
    destruct (filter _ _); repeat split; reflexivity. }
  tauto.
Qed.

(** X14. Hiding twice is hiding once and showing twice is showing once
    (the element is the same, attribute text included); showing after
    hiding leaves the classes that showing alone leaves, so an element
    that was visible gets its classes back, in their order. *)
Theorem hide_show_again (e : Element) :
  hide (hide (Some e)) = hide (Some e)
  /\ show (show (Some e)) = show (Some e)
  /\ class_tokens <$> show (hide (Some e)) = class_tokens <$> show (Some e)
  /\ (lit "hidden" ∉ class_tokens e ->
      class_tokens <$> show (hide (Some e)) = Some (class_tokens e)).
Proof.
  assert (Hsh : class_tokens <$> show (hide (Some e))
                = Some (filter (fun x => negb (str_eqb x (lit "hidden")))
                          (class_tokens e))).
  { cbn [hide show fmap option_fmap option_map]. f_equal.
    rewrite class_tokens_remove, (class_tokens_add _ _ token_ok_hidden).
    apply filter_set_append. }
  split; [|split; [|split]].
  - cbn [hide]. f_equal. unfold classList_add at 1.
    rewrite (class_tokens_add _ _ token_ok_hidden).
    unfold set_append at 1. rewrite in_set_append. reflexivity.
  - cbn [show]. f_equal.
    pose proof (class_tokens_remove (lit "hidden") e) as Hr.
    unfold classList_remove at 1. rewrite Hr, filter_twice.
    unfold classList_remove in *. destruct (el_class e) as [c|] eqn:Ec.
    + reflexivity.
    + destruct (filter _ (class_tokens e)) eqn:Ef.
      * rewrite Ec. reflexivity.
      * reflexivity.
  - rewrite Hsh. cbn [show fmap option_fmap option_map]. f_equal.
    symmetry. apply class_tokens_remove.
  - intros Hv. rewrite Hsh. f_equal. apply filter_absent, Hv.
Qed.

Section AlertMore.
Context {NO : NumberOps}.

(** X20. [alertBox(type, msg)], for a [type] whose text is one class
    name, makes a [div] without other attributes whose classes are
    [alert] and that name, in this order ([alert] alone when the name is
    [alert]), and whose content is the text of [msg], character for
    character: markup in [msg] stays text. *)
Theorem alertBox_classes (type : value) (t m : jstring) :
  ToString type = Ok t ->
  token_ok t ->
  exists e,
    alertBox type (Str m) = Ok e
    /\ el_tag e = lit "div" /\ el_attrs e = [] /\ el_text e = m
    /\ class_tokens e
       = (if str_eqb t (lit "alert") then [lit "alert"] else [lit "alert"; t]).
Proof.
  intros Ht Hok. unfold alertBox. rewrite Ht. cbn [bind].
  eexists. split; [reflexivity|]. repeat (split; [reflexivity|]).
  unfold class_tokens, parse_tokens.
  cbn [set_textContent set_class createElement el_class bind ToString
       default from_option id].
  change (lit "alert " ++ t) with (serialize_tokens [lit "alert"; t]).
  rewrite split_serialize.
  - cbn [fold_left].
    change (set_append [] (lit "alert")) with [lit "alert"].
    unfold set_append, in_set. cbn [existsb]. rewrite orb_false_r.
    destruct (str_eqb t (lit "alert")); reflexivity.
  - repeat constructor; [discriminate | apply Hok | apply Hok].
Qed.

End AlertMore.

(** X20 at [alertBox('error', 'Name <b> is taken')]. *)
Lemma alertBox_classes_witness :
  exists e,
    alertBox (Str (lit "error")) (Str (lit "Name <b> is taken")) = Ok e
    /\ el_tag e = lit "div" /\ el_attrs e = []
    /\ el_text e = lit "Name <b> is taken"
    /\ class_tokens e = [lit "alert"; lit "error"].
Proof.
  refine (alertBox_classes (Str (lit "error")) (lit "error")
            (lit "Name <b> is taken") eq_refl _).
  split; [discriminate | reflexivity].
Defined.

(** ** [auth.js]: the session in the storage *)

Section AuthMore.
Context {NO : NumberOps}.

Lemma getAuth_Ok (st : Storage) : exists auth, getAuth st = Ok auth.
Proof.
  unfold getAuth, getItem.
  destruct (st !! AUTH_KEY) as [[|c raw]|]; [eauto| |eauto].
  cbn [truthy ToString bind].
  destruct (JSON_parse (c :: raw)); cbn [try_catch]; eauto.
Qed.

(** The default of the parameter changes nothing that its truth value
    does not say: a missing [allowAnonymous] is a falsy one. *)
Lemma requireAuth_eq (opts : option RequireOptions) (st : Storage) :
  requireAuth opts st =
    let* auth := getAuth st in
    Ok (if truthy auth
           || match opts with
              | Some o => truthy (allowAnonymous o)
              | None => false
              end
        then (auth, None)
        else (Null, Some (lit "/login"))).
Proof.
  unfold requireAuth. destruct (getAuth st) as [auth|t]; [|reflexivity].
  cbn [bind].
  assert (E : forall a, truthy match a with Undefined => Bool false | _ => a end
                        = truthy a) by (intros []; reflexivity).
  destruct opts as [[a]|]; cbn [allowAnonymous].
  - specialize (E a). destruct a; cbn [truthy] in *;
      destruct (truthy auth); cbn [negb andb orb]; try reflexivity;
      match goal with
      | |- context [negb ?b] => destruct b; reflexivity
      end.
  - destruct (truthy auth); reflexivity.
Qed.

(** X15. [requireAuth] never raises. It returns what [getAuth] returns,
    without leaving the page, when that is truthy or when
    [allowAnonymous] is truthy; otherwise it assigns [/login] to
    [window.location.href] and returns [null]. A call without options, or
    with [allowAnonymous] missing, is a call with [allowAnonymous] false:
    it returns a truthy value or redirects. *)
Theorem requireAuth_guard (opts : option RequireOptions) (st : Storage) :
  exists auth,
    getAuth st = Ok auth
    /\ requireAuth opts st
       = Ok (if truthy auth
                || match opts with
                   | Some o => truthy (allowAnonymous o)
                   | None => false
                   end
             then (auth, None)
             else (Null, Some (lit "/login")))
    /\ exists v nav,
         requireAuth None st = Ok (v, nav)
         /\ requireAuth (Some {| allowAnonymous := Undefined |}) st = Ok (v, nav)
         /\ ((truthy v = true /\ nav = None)
             \/ (v = Null /\ nav = Some (lit "/login"))).
Proof.
  destruct (getAuth_Ok st) as [auth Ha]. exists auth.
  split; [exact Ha|]. rewrite !requireAuth_eq, Ha. cbn [bind].
  split; [reflexivity|].
  cbn [allowAnonymous truthy]. rewrite orb_false_r.
  destruct (truthy auth) eqn:Et; do 2 eexists;
    (split; [reflexivity|]); (split; [reflexivity|]); auto.
Qed.

(** X16. After [setAuth] of a truthy object that is JSON data,
    [requireAuth] returns that object and does not redirect, whatever its
    options; after [clearAuth] it redirects to [/login] and returns
    [null], unless [allowAnonymous] is truthy: then it returns [null] and
    stays. *)
Theorem requireAuth_session (auth : value) (st : Storage) :
  json_data auth ->
  truthy auth = true ->
  exists st',
    setAuth auth st = Ok st'
    /\ (forall opts, requireAuth opts st' = Ok (auth, None))
    /\ requireAuth None (clearAuth st') = Ok (Null, Some (lit "/login"))
    /\ (forall o, truthy (allowAnonymous o) = true ->
          requireAuth (Some o) (clearAuth st') = Ok (Null, None)).
Proof.
  intros Hjd Ht.
  destruct (setAuth_getAuth auth st Hjd) as (st' & Hset & Hget).
  exists st'. split; [exact Hset|]. split; [|split].
  - intros opts. rewrite requireAuth_eq, Hget. cbn [bind].
    rewrite Ht. reflexivity.
  - rewrite requireAuth_eq, getAuth_clearAuth. reflexivity.
  - intros o Ho. rewrite requireAuth_eq, getAuth_clearAuth. cbn [bind].
    rewrite Ho. reflexivity.
Qed.

(** X17. A [setAuth] that succeeds has written one entry: under the key
    [smart_platform_auth] the storage holds the JSON text of the
    argument, or the word [undefined] when the argument has none (it is
    [undefined]); then [getAuth] returns [null]. Every other key of the
    storage keeps its value, under [setAuth] and under [clearAuth], and
    [clearAuth] leaves no entry under the key. Whether the write succeeds
    is the storage's affair (quota, access): the statement is about the
    writes that do. *)
Theorem setAuth_stores (auth : value) (st st' : Storage) :
  setAuth auth st = Ok st' ->
  st' !! AUTH_KEY = Some (default (lit "undefined") (stringify auth))
  /\ (stringify auth = None -> getAuth st' = Ok Null)
  /\ (forall k, k <> AUTH_KEY ->
        st' !! k = st !! k /\ clearAuth st !! k = st !! k)
  /\ clearAuth st !! AUTH_KEY = None.
Proof.
  intros Hset.
  assert (E : st' = <[AUTH_KEY := default (lit "undefined") (stringify auth)]> st).
  { unfold setAuth, setItem, JSON_stringify in Hset.
    destruct (stringify auth); cbn [ToString bind] in Hset;
      inversion Hset; reflexivity. }
  subst st'. split; [|split; [|split]].
  - apply lookup_insert_eq.
  - intros ->. unfold getAuth, getItem. rewrite lookup_insert_eq. reflexivity.
  - intros k Hk. unfold clearAuth, removeItem.
    rewrite lookup_insert_ne, lookup_delete_ne by congruence. auto.
  - apply lookup_delete_eq.
Qed.

(** X18. Sessions do not pile up: a second [setAuth] replaces the
    first, so the storage is the one a single [setAuth] of the second
    object gives; [clearAuth] after [setAuth] gives what [clearAuth]
    alone gives, which is the storage itself when it had no session; and
    clearing twice is clearing once. *)
Theorem auth_last_write_wins (a b : value) (st : Storage) :
  exists s1 s2,
    setAuth a st = Ok s1
    /\ setAuth b s1 = Ok s2
    /\ setAuth b st = Ok s2
    /\ clearAuth s1 = clearAuth st
    /\ (st !! AUTH_KEY = None -> clearAuth s1 = st)
    /\ clearAuth (clearAuth st) = clearAuth st.
Proof.
  assert (H : forall v s, setAuth v s
              = Ok (<[AUTH_KEY := default (lit "undefined") (stringify v)]> s)).
  { intros v s. unfold setAuth, setItem, JSON_stringify.
    destruct (stringify v); reflexivity. }
  do 2 eexists. rewrite !H. split; [reflexivity|]. split; [reflexivity|].
  unfold clearAuth, removeItem.
  split; [rewrite insert_insert_eq; reflexivity|].
  split; [apply delete_insert_eq|].
  split; [apply delete_insert_id | apply delete_delete_eq].
Qed.

End AuthMore.

(** X16 at the teacher's object and the empty storage. *)
Lemma requireAuth_session_witness :
  exists st',
    setAuth (Obj [(lit "role", Str (lit "teacher"));
                  (lit "username", Str (lit "amal"));
                  (lit "user_id", Num 7%Z);
                  (lit "classes", Arr [Num 3%Z; Num 12%Z])]) ∅ = Ok st'
    /\ (forall opts,
          requireAuth opts st'
          = Ok (Obj [(lit "role", Str (lit "teacher"));
                     (lit "username", Str (lit "amal"));
                     (lit "user_id", Num 7%Z);
                     (lit "classes", Arr [Num 3%Z; Num 12%Z])], None))
    /\ requireAuth None (clearAuth st') = Ok (Null, Some (lit "/login"))
    /\ (forall o, truthy (allowAnonymous o) = true ->
          requireAuth (Some o) (clearAuth st') = Ok (Null, None)).
Proof. exact (requireAuth_session _ ∅ sample_auth_json_data eq_refl). Defined.

(** X17 at [setAuth(undefined)] on a storage that holds a theme. *)
Lemma setAuth_stores_witness :
  setAuth Undefined (<[lit "theme" := lit "dark"]> ∅)
  = Ok (<[AUTH_KEY := lit "undefined"]> (<[lit "theme" := lit "dark"]> ∅))
  /\ (<[AUTH_KEY := lit "undefined"]> (<[lit "theme" := lit "dark"]> ∅) : Storage)
     !! AUTH_KEY = Some (lit "undefined")
  /\ (stringify Undefined = None ->
      getAuth (<[AUTH_KEY := lit "undefined"]> (<[lit "theme" := lit "dark"]> ∅))
      = Ok Null)
  /\ (forall k, k <> AUTH_KEY ->
        (<[AUTH_KEY := lit "undefined"]> (<[lit "theme" := lit "dark"]> ∅)
           : Storage) !! k
        = (<[lit "theme" := lit "dark"]> ∅ : Storage) !! k
        /\ clearAuth (<[lit "theme" := lit "dark"]> ∅) !! k
           = (<[lit "theme" := lit "dark"]> ∅ : Storage) !! k)
  /\ clearAuth (<[lit "theme" := lit "dark"]> ∅) !! AUTH_KEY = None.
Proof.
  split; [reflexivity|].
  exact (setAuth_stores Undefined (<[lit "theme" := lit "dark"]> ∅)
           (<[AUTH_KEY := lit "undefined"]> (<[lit "theme" := lit "dark"]> ∅))
           eq_refl).
Defined.

(** An object with a property that is [undefined], pruned, is JSON
    data. *)
Lemma sample_pruned_json_data :
  json_data (prune (Obj [(lit "role", Str (lit "teacher"));
                         (lit "token", Undefined)])).
Proof.
  cbn. constructor.
  - split; [|reflexivity].
    apply (bool_decide_unpack _). vm_compute. exact I.
  - repeat constructor.
Qed.

(** X19 at that object and the empty storage. *)
Lemma auth_round_trip_pruned_witness :
  exists st',
    setAuth (Obj [(lit "role", Str (lit "teacher"));
                  (lit "token", Undefined)]) ∅ = Ok st'
    /\ getAuth st' = Ok (Obj [(lit "role", Str (lit "teacher"))]).
Proof. exact (auth_round_trip_pruned _ ∅ sample_pruned_json_data). Defined.

(** ** More sample runs *)

Example sample_hide :
  hide (Some (mkElement (lit "div") (Some (lit "  card   big card ")) [] []))
  = Some (mkElement (lit "div") (Some (lit "card big hidden")) [] []).
Proof. reflexivity. Qed.

Example sample_show :
  show (Some (mkElement (lit "div") (Some (lit "hidden card hidden"))
                [(lit "id", lit "msg")] (lit "Saved")))
  = Some (mkElement (lit "div") (Some (lit "card"))
            [(lit "id", lit "msg")] (lit "Saved"))
  /\ show (Some (mkElement (lit "p") None [] []))
     = Some (mkElement (lit "p") None [] [])
  /\ show (Some (mkElement (lit "p") (Some (lit "hidden")) [] []))
     = Some (mkElement (lit "p") (Some []) [] []).
Proof. repeat split. Qed.

Example sample_requireAuth :
  requireAuth None ∅ = Ok (Null, Some (lit "/login"))
  /\ requireAuth (Some {| allowAnonymous := Bool true |}) ∅ = Ok (Null, None)
  /\ requireAuth None (<[AUTH_KEY := sq "{'role':'student'}"]> ∅)
     = Ok (Obj [(lit "role", Str (lit "student"))], None)
  /\ requireAuth None (<[AUTH_KEY := lit "0"]> ∅)
     = Ok (Null, Some (lit "/login")).
Proof. repeat split. Qed.

Example sample_badgeForResult :
  badgeForResult (Str (lit "success"))
  = sq "<span class='tag'>" ++ label_success ++ lit "</span>"
  /\ badgeForResult (Str (lit "Success")) = tag_span label_failure
  /\ badgeForResult Undefined = tag_span label_failure.
Proof. repeat split. Qed.

Example sample_alertBox :
  alertBox (Str (lit "ok big")) Null
  = Ok (mkElement (lit "div") (Some (lit "alert ok big")) [] [])
  /\ alertBox Undefined (Num 3%Z)
     = Ok (mkElement (lit "div") (Some (lit "alert undefined")) [] (lit "3")).
Proof. repeat split. Qed.
